(** * A shallow embedding of AutoPyFunc.py (the "sid" compiler)

    The program parses a Python file, finds the marker calls [sid("desc")]
    and [sid("name", "desc")], asks a text-completion backend for a function
    named after the marker, caches the generated text under the key
    [(function_name, description)] in a JSON file, replaces each marker call
    by a bare name and prepends the generated texts to the unparsed module.

    Python text is modelled as Rocq [string]s, i.e. sequences of code points
    0..255 (the Latin-1 part of Unicode); the external collaborators (the
    Python parser and unparser, [compile], the token endpoint and the
    completion backend) are section variables. *)

From Stdlib Require Import String Ascii List ZArith NArith Bool Lia.
From Stdlib Require Import DecimalN Permutation.
Import ListNotations.
Open Scope string_scope.

(** ** Python constants and their [repr]/[str] *)

Inductive pyconst :=
| PStr (s : string)
| PInt (z : Z).

(** Decimal digits of a [Decimal.uint], most significant first. *)
Fixpoint uint_to_string (u : Decimal.uint) : string :=
  match u with
  | Decimal.Nil => EmptyString
  | Decimal.D0 u => String "0" (uint_to_string u)
  | Decimal.D1 u => String "1" (uint_to_string u)
  | Decimal.D2 u => String "2" (uint_to_string u)
  | Decimal.D3 u => String "3" (uint_to_string u)
  | Decimal.D4 u => String "4" (uint_to_string u)
  | Decimal.D5 u => String "5" (uint_to_string u)
  | Decimal.D6 u => String "6" (uint_to_string u)
  | Decimal.D7 u => String "7" (uint_to_string u)
  | Decimal.D8 u => String "8" (uint_to_string u)
  | Decimal.D9 u => String "9" (uint_to_string u)
  end.

(** [repr(n)] / [str(n)] of a Python int. *)
Definition repr_int (z : Z) : string :=
  match z with
  | Z0 => "0"
  | Zpos p => uint_to_string (N.to_uint (Npos p))
  | Zneg p => String "-" (uint_to_string (N.to_uint (Npos p)))
  end.

Definition lower_hex (n : nat) : ascii :=
  ascii_of_nat (if Nat.ltb n 10 then 48 + n else 87 + n).

Definition sq : ascii := "'"%char.
Definition dq : ascii := ascii_of_nat 34.
Definition bsl : ascii := "\"%char.

(** CPython's [Py_UNICODE_ISPRINTABLE] on code points 0x7f..0xff: the
    controls 0x7f..0x9f, the no-break space 0xa0 and the soft hyphen 0xad are
    not printable. *)
Definition latin1_printable (n : nat) : bool :=
  negb (Nat.leb 127 n && Nat.leb n 160) && negb (Nat.eqb n 173).

(** One character of [unicode_repr] (Objects/unicodeobject.c) with the
    chosen quote [q]. *)
Definition escape_char (q c : ascii) : string :=
  let n := nat_of_ascii c in
  if Ascii.eqb c q || Ascii.eqb c bsl then String bsl (String c EmptyString)
  else if Nat.eqb n 9 then "\t"
  else if Nat.eqb n 10 then "\n"
  else if Nat.eqb n 13 then "\r"
  else if Nat.ltb n 32 || negb (latin1_printable n) then
    String bsl (String "x" (String (lower_hex (n / 16)) (String (lower_hex (n mod 16)) EmptyString)))
  else String c EmptyString.

Fixpoint escape (q : ascii) (s : string) : string :=
  match s with
  | EmptyString => EmptyString
  | String c s' => escape_char q c ++ escape q s'
  end.

Fixpoint has_char (c : ascii) (s : string) : bool :=
  match s with
  | EmptyString => false
  | String d s' => Ascii.eqb c d || has_char c s'
  end.

(** [repr(s)]: single quotes unless the text has a single and no double
    quote. *)
Definition repr_str (s : string) : string :=
  let q := if has_char sq s && negb (has_char dq s) then dq else sq in
  String q (escape q s ++ String q EmptyString).

Definition repr_const (c : pyconst) : string :=
  match c with
  | PStr s => repr_str s
  | PInt z => repr_int z
  end.

(** [str(c)]: the text itself for a str, the decimal digits for an int. *)
Definition str_const (c : pyconst) : string :=
  match c with
  | PStr s => s
  | PInt z => repr_int z
  end.

(** The cache key [(function_name, description)] and [str(key)] as
    [save_cache] computes it. *)
Definition key : Type := pyconst * pyconst.

Definition encode_key (k : key) : string :=
  "(" ++ repr_const (fst k) ++ ", " ++ repr_const (snd k) ++ ")".

(** ** [eval] on the texts [save_cache] writes

    [load_cache] decodes each key with [eval].  The decoder below is
    Python's evaluation of a literal tuple [(x, y)] of two str or int
    literals written as [str] writes them; any other text is reported as a
    failing [eval].  The escapes [\ooo], [\u], [\U] and [\N{..}], which
    [repr] never writes for Latin-1 text, are outside the model and reported
    as failure too. *)

Definition hex_value (c : ascii) : option nat :=
  let n := nat_of_ascii c in
  if Nat.leb 48 n && Nat.leb n 57 then Some (n - 48)
  else if Nat.leb 97 n && Nat.leb n 102 then Some (n - 87)
  else if Nat.leb 65 n && Nat.leb n 70 then Some (n - 55)
  else None.

Definition cons_res (c : ascii) (r : option (string * string)) :=
  match r with
  | Some (s, rest) => Some (String c s, rest)
  | None => None
  end.

(** The body of a str literal opened by quote [q], up to its closing quote:
    the decoded text and the text after the literal. *)
Fixpoint lit_body (q : ascii) (s : string) : option (string * string) :=
  match s with
  | EmptyString => None
  | String c rest =>
      if Ascii.eqb c q then Some (EmptyString, rest)
      else if Ascii.eqb c bsl then
        match rest with
        | EmptyString => None
        | String e rest' =>
            let n := nat_of_ascii e in
            if Ascii.eqb e bsl || Ascii.eqb e sq || Ascii.eqb e dq then cons_res e (lit_body q rest')
            else if Nat.eqb n 10 then lit_body q rest'
            else if Ascii.eqb e "a" then cons_res (ascii_of_nat 7) (lit_body q rest')
            else if Ascii.eqb e "b" then cons_res (ascii_of_nat 8) (lit_body q rest')
            else if Ascii.eqb e "f" then cons_res (ascii_of_nat 12) (lit_body q rest')
            else if Ascii.eqb e "n" then cons_res (ascii_of_nat 10) (lit_body q rest')
            else if Ascii.eqb e "r" then cons_res (ascii_of_nat 13) (lit_body q rest')
            else if Ascii.eqb e "t" then cons_res (ascii_of_nat 9) (lit_body q rest')
            else if Ascii.eqb e "v" then cons_res (ascii_of_nat 11) (lit_body q rest')
            else if Ascii.eqb e "x" then
              match rest' with
              | String h1 (String h2 r) =>
                  match hex_value h1, hex_value h2 with
                  | Some a, Some b => cons_res (ascii_of_nat (16 * a + b)) (lit_body q r)
                  | _, _ => None
                  end
              | _ => None
              end
            else if Nat.leb 48 n && Nat.leb n 55 || Ascii.eqb e "u" || Ascii.eqb e "U"
                    || Ascii.eqb e "N" then None
            else cons_res bsl (lit_body q rest)
        end
      else if Nat.eqb (nat_of_ascii c) 10 then None
      else cons_res c (lit_body q rest)
  end.

Definition digit_of (c : ascii) (u : Decimal.uint) : option Decimal.uint :=
  if Ascii.eqb c "0" then Some (Decimal.D0 u)
  else if Ascii.eqb c "1" then Some (Decimal.D1 u)
  else if Ascii.eqb c "2" then Some (Decimal.D2 u)
  else if Ascii.eqb c "3" then Some (Decimal.D3 u)
  else if Ascii.eqb c "4" then Some (Decimal.D4 u)
  else if Ascii.eqb c "5" then Some (Decimal.D5 u)
  else if Ascii.eqb c "6" then Some (Decimal.D6 u)
  else if Ascii.eqb c "7" then Some (Decimal.D7 u)
  else if Ascii.eqb c "8" then Some (Decimal.D8 u)
  else if Ascii.eqb c "9" then Some (Decimal.D9 u)
  else None.

(** The maximal run of decimal digits at the front of [s]. *)
Fixpoint digits (s : string) : Decimal.uint * string :=
  match s with
  | EmptyString => (Decimal.Nil, EmptyString)
  | String c rest =>
      match digit_of c Decimal.Nil with
      | None => (Decimal.Nil, s)
      | Some _ =>
          let (u, r) := digits rest in
          match digit_of c u with
          | Some u' => (u', r)
          | None => (u, r)
          end
      end
  end.

Definition int_lit (s : string) : option (Z * string) :=
  match digits s with
  | (Decimal.Nil, _) => None
  | (u, r) => Some (Z.of_N (N.of_uint u), r)
  end.

Definition eval_const (s : string) : option (pyconst * string) :=
  match s with
  | String c rest =>
      if Ascii.eqb c sq || Ascii.eqb c dq then
        match lit_body c rest with
        | Some (t, r) => Some (PStr t, r)
        | None => None
        end
      else if Ascii.eqb c "-" then
        match int_lit rest with
        | Some (z, r) => Some (PInt (- z), r)
        | None => None
        end
      else
        match int_lit s with
        | Some (z, r) => Some (PInt z, r)
        | None => None
        end
  | EmptyString => None
  end.

Definition eval_key (s : string) : option key :=
  match s with
  | String "(" r =>
      match eval_const r with
      | Some (a, String "," (String " " r')) =>
          match eval_const r' with
          | Some (b, String ")" EmptyString) => Some (a, b)
          | _ => None
          end
      | _ => None
      end
  | _ => None
  end.

(** ** Syntax trees, state and the error-state monad *)

#[local] Set Warnings "-register-all".

(** Python expressions as the transformer sees them: names, constants, calls
    (with their position; keyword arguments are not modelled) and any other
    node with its sub-expressions in field order. *)
Inductive expr :=
| EName (id : string)
| EConst (c : pyconst)
| ECall (lineno col_offset : Z) (func : expr) (args : list expr)
| ENode (tag : string) (children : list expr).

Inductive stmt :=
| SExpr (value : expr)
| SAssign (target : string) (value : expr).

Definition pmodule : Type := list stmt.

Definition node_type (e : expr) : string :=
  match e with
  | EName _ => "Name"
  | EConst _ => "Constant"
  | ECall _ _ _ _ => "Call"
  | ENode tag _ => tag
  end.

(** What the token endpoint does: raise, or answer with a status and a
    body whose [json()] fails, holds a ["token"] field, or lacks it. *)
Inductive token_body :=
| TBInvalidJson (msg : string)
| TBToken (t : string)
| TBNoToken.

Inductive token_response :=
| TRRaise (msg : string)
| TRResponse (status_code : Z) (body : token_body).

(** What the completion backend does: raise (network error, timeout), or
    answer with a status and a payload whose
    [json()["choices"][0]["message"]["content"]] is a text or fails. *)
Inductive payload :=
| PContent (content : string)
| PMalformed (msg : string).

Inductive completion_response :=
| CRRaise (msg : string)
| CRResponse (status_code : Z) (body : payload).

(** The values [get_token] returns: a token, [None], or [{"error": msg}]. *)
Inductive pyval :=
| VStr (s : string)
| VNone
| VErrorDict (msg : string).

(** [str(v)], as the f-string of the Authorization header computes it. *)
Definition str_val (v : pyval) : string :=
  match v with
  | VStr s => s
  | VNone => "None"
  | VErrorDict m => "{'error': " ++ repr_str m ++ "}"
  end.

(** The persisted cache file [function_cache.json]: absent, a JSON object
    from the encoded keys to the texts, or unreadable / not valid JSON. *)
Inductive cache_file_state :=
| CacheAbsent
| CacheJson (obj : list (string * string))
| CacheUnreadable (msg : string).

Inductive level := INFO | ERROR.

Record state := mkState {
  files : list (string * string);
  read_only : list string;
  cache_file : cache_file_state;
  cache_writable : bool;
  clock : Z;
  requests : list (string * string);
  logs : list (level * string);
  function_codes : list string;
  function_cache : list (key * string);
  token : pyval;
  token_time : Z
}.

Inductive exn :=
| AttributeError (msg : string)
| SyntaxError (msg : string).

Inductive result (A : Type) :=
| Ok (a : A)
| Raise (e : exn).
Arguments Ok {A} a.
Arguments Raise {A} e.

Definition M (A : Type) : Type := state -> result A * state.

Definition ret {A} (a : A) : M A := fun s => (Ok a, s).

Definition bind {A B} (m : M A) (k : A -> M B) : M B :=
  fun s => match m s with
           | (Ok a, s') => k a s'
           | (Raise e, s') => (Raise e, s')
           end.

Definition raise {A} (e : exn) : M A := fun s => (Raise e, s).

Notation "x <- m ;; k" := (bind m (fun x => k))
  (at level 61, m at next level, right associativity).

Fixpoint mapM {A B} (f : A -> M B) (l : list A) : M (list B) :=
  match l with
  | [] => ret []
  | x :: r => y <- f x ;; ys <- mapM f r ;; ret (y :: ys)
  end.

Definition modify (f : state -> state) : M unit := fun s => (Ok tt, f s).

Definition gets {A} (f : state -> A) : M A := fun s => (Ok (f s), s).

Definition with_logs (s : state) (l : list (level * string)) : state :=
  {| files := files s; read_only := read_only s; cache_file := cache_file s;
     cache_writable := cache_writable s; clock := clock s; requests := requests s;
     logs := l; function_codes := function_codes s; function_cache := function_cache s;
     token := token s; token_time := token_time s |}.

Definition with_requests (s : state) (r : list (string * string)) : state :=
  {| files := files s; read_only := read_only s; cache_file := cache_file s;
     cache_writable := cache_writable s; clock := clock s; requests := r;
     logs := logs s; function_codes := function_codes s; function_cache := function_cache s;
     token := token s; token_time := token_time s |}.

Definition with_codes (s : state) (c : list string) : state :=
  {| files := files s; read_only := read_only s; cache_file := cache_file s;
     cache_writable := cache_writable s; clock := clock s; requests := requests s;
     logs := logs s; function_codes := c; function_cache := function_cache s;
     token := token s; token_time := token_time s |}.

Definition with_cache (s : state) (c : list (key * string)) : state :=
  {| files := files s; read_only := read_only s; cache_file := cache_file s;
     cache_writable := cache_writable s; clock := clock s; requests := requests s;
     logs := logs s; function_codes := function_codes s; function_cache := c;
     token := token s; token_time := token_time s |}.

Definition with_cache_file (s : state) (f : cache_file_state) : state :=
  {| files := files s; read_only := read_only s; cache_file := f;
     cache_writable := cache_writable s; clock := clock s; requests := requests s;
     logs := logs s; function_codes := function_codes s; function_cache := function_cache s;
     token := token s; token_time := token_time s |}.

Definition with_token (s : state) (t : pyval) (t_time : Z) : state :=
  {| files := files s; read_only := read_only s; cache_file := cache_file s;
     cache_writable := cache_writable s; clock := clock s; requests := requests s;
     logs := logs s; function_codes := function_codes s; function_cache := function_cache s;
     token := t; token_time := t_time |}.

Definition with_files (s : state) (f : list (string * string)) : state :=
  {| files := f; read_only := read_only s; cache_file := cache_file s;
     cache_writable := cache_writable s; clock := clock s; requests := requests s;
     logs := logs s; function_codes := function_codes s; function_cache := function_cache s;
     token := token s; token_time := token_time s |}.

Definition log (lv : level) (msg : string) : M unit :=
  modify (fun s => with_logs s (logs s ++ [(lv, msg)])).

Definition nl : string := String (ascii_of_nat 10) EmptyString.

(** ** [get_token] *)

(** [get_token()] given what [requests.get] on the token URL does.  Every
    path of its body is inside [try ... except Exception]. *)
Definition get_token (r : token_response) : pyval :=
  match r with
  | TRRaise m => VErrorDict m
  | TRResponse code body =>
      if Z.eqb code 200 then
        match body with
        | TBInvalidJson m => VErrorDict m
        | TBToken t => VStr t
        | TBNoToken => VNone
        end
      else VErrorDict ("Received " ++ repr_int code ++ " HTTP status code")
  end.

(** ** Text helpers *)

Fixpoint drop (n : nat) (s : string) : string :=
  match n, s with
  | O, _ => s
  | S n', String _ s' => drop n' s'
  | S _, EmptyString => EmptyString
  end.

(** The text before and after the first occurrence of [pat] in [s]. *)
Fixpoint split_sub (pat s : string) : option (string * string) :=
  if String.prefix pat s then Some (EmptyString, drop (String.length pat) s)
  else
    match s with
    | EmptyString => None
    | String c r =>
        match split_sub pat r with
        | Some (b, a) => Some (String c b, a)
        | None => None
        end
    end.

Definition fence : string := "```".

(** [re.search(r'```.*?\n(.*?)```', code, re.DOTALL).group(1)]: the
    leftmost start of a fence after which a newline and then a fence follow;
    the lazy groups take the first newline and the first fence after it. *)
Definition fence_block_at (after_fence : string) : option string :=
  match split_sub nl after_fence with
  | Some (_, post) =>
      match split_sub fence post with
      | Some (body, _) => Some body
      | None => None
      end
  | None => None
  end.

Fixpoint search_code_block (s : string) : option string :=
  match s with
  | EmptyString => None
  | String _ r =>
      if String.prefix fence s then
        match fence_block_at (drop 3 s) with
        | Some b => Some b
        | None => search_code_block r
        end
      else search_code_block r
  end.

(** [str.replace] with a one-character pattern and replacement. *)
Fixpoint replace_char (old new : ascii) (s : string) : string :=
  match s with
  | EmptyString => EmptyString
  | String c r => String (if Ascii.eqb c old then new else c) (replace_char old new r)
  end.

(** ** Python dicts keyed by [key], in insertion order *)

Definition pyconst_eqb (a b : pyconst) : bool :=
  match a, b with
  | PStr x, PStr y => String.eqb x y
  | PInt x, PInt y => Z.eqb x y
  | _, _ => false
  end.

Definition key_eqb (k1 k2 : key) : bool :=
  pyconst_eqb (fst k1) (fst k2) && pyconst_eqb (snd k1) (snd k2).

Fixpoint dict_get (k : key) (d : list (key * string)) : option string :=
  match d with
  | [] => None
  | (k', v) :: r => if key_eqb k k' then Some v else dict_get k r
  end.

(** [d[k] = v]: an existing key keeps its place, a new one goes last. *)
Fixpoint dict_set (d : list (key * string)) (k : key) (v : string) : list (key * string) :=
  match d with
  | [] => [(k, v)]
  | (k', v') :: r => if key_eqb k k' then (k', v) :: r else (k', v') :: dict_set r k v
  end.

(** [{eval(k): v for k, v in read_cache.items()}]; [None] when an [eval]
    raises. *)
Fixpoint decode_cache (obj : list (string * string)) (acc : list (key * string))
  : option (list (key * string)) :=
  match obj with
  | [] => Some acc
  | (ks, v) :: r =>
      match eval_key ks with
      | Some k => decode_cache r (dict_set acc k v)
      | None => None
      end
  end.

(** [{str((fname,desc)): code for (fname,desc), code in cache.items()}] *)
Definition encode_cache (d : list (key * string)) : list (string * string) :=
  map (fun kv => (encode_key (fst kv), snd kv)) d.

Fixpoint file_get (p : string) (fs : list (string * string)) : option string :=
  match fs with
  | [] => None
  | (q, c) :: r => if String.eqb p q then Some c else file_get p r
  end.

Fixpoint file_set (p c : string) (fs : list (string * string)) : list (string * string) :=
  match fs with
  | [] => [(p, c)]
  | (q, c') :: r => if String.eqb p q then (q, c) :: r else (q, c') :: file_set p c r
  end.

Fixpoint join (sep : string) (l : list string) : string :=
  match l with
  | [] => EmptyString
  | [x] => x
  | x :: r => x ++ sep ++ join sep r
  end.

(** ** The program *)

Section Program.

(** What [requests.get] on the token URL does at a given [time.time()]. *)
Variable token_endpoint : Z -> token_response.
(** What the completion backend answers to a request with a given
    Authorization header and system prompt. *)
Variable backend : string -> string -> completion_response.
(** [compile(code, '<string>', 'exec')]: [None] when the text parses,
    [Some msg] when it raises. *)
Variable py_compile : string -> option string.
(** [ast.parse]: [None] on a [SyntaxError]. *)
Variable py_parse : string -> option pmodule.
(** [astunparse.unparse]. *)
Variable py_unparse : pmodule -> string.

Definition prompt_text (function_name description : pyconst) : string :=
  "Below is a python function with the name " ++ str_const function_name
  ++ " that does the following: " ++ str_const description
  ++ ". No code blocks/formatting are allowed. Assume any uncertainties.".

Definition refresh_token : M unit :=
  fun s =>
    if Z.ltb 600 (clock s - token_time s)
    then (Ok tt, with_token s (get_token (token_endpoint (clock s))) (clock s))
    else (Ok tt, s).

(** [await client.post(...)]; every request is recorded. *)
Definition post_completion (auth prompt : string) : M completion_response :=
  fun s => (Ok (backend auth prompt), with_requests s (requests s ++ [(auth, prompt)])).

Definition generation_failed (msg : string) : M string :=
  _ <- log ERROR ("Failed to generate function: " ++ msg) ;; ret EmptyString.

Definition generate_function (function_name description : pyconst) : M string :=
  _ <- refresh_token ;;
  t <- gets token ;;
  resp <- post_completion ("Bearer " ++ str_val t) (prompt_text function_name description) ;;
  match resp with
  | CRRaise m => generation_failed m
  | CRResponse status body =>
      if negb (Z.eqb status 200) then ret "Response 404"
      else
        match body with
        | PMalformed m => generation_failed m
        | PContent content =>
            let code := match search_code_block content with
                        | Some b => b
                        | None => content
                        end in
            match py_compile code with
            | None => ret code
            | Some m => generation_failed m
            end
        end
  end.

Definition load_cache : M unit :=
  f <- gets cache_file ;;
  match f with
  | CacheAbsent => modify (fun s => with_cache s [])
  | CacheUnreadable m =>
      _ <- log ERROR ("Failed to load cache: " ++ m) ;; modify (fun s => with_cache s [])
  | CacheJson obj =>
      match decode_cache obj [] with
      | Some d => modify (fun s => with_cache s d)
      | None =>
          _ <- log ERROR "Failed to load cache: invalid syntax" ;;
          modify (fun s => with_cache s [])
      end
  end.

(** An unwritable cache file fails at [open], before anything is written. *)
Definition save_cache : M unit :=
  w <- gets cache_writable ;;
  if w then modify (fun s => with_cache_file s (CacheJson (encode_cache (function_cache s))))
  else log ERROR "Failed to save cache: permission denied".

(** [SidFunctionTransformer()] *)
Definition new_transformer : M unit :=
  _ <- modify (fun s => with_codes s []) ;;
  _ <- load_cache ;;
  modify (fun s => with_token s (get_token (token_endpoint (clock s))) (clock s)).

(** Lines 68-77 of [visit_Call]: the cache lookup, the generation on a
    miss, the pool and the substituted name. *)
Definition use_marker (function_name description : pyconst) : M expr :=
  cache <- gets function_cache ;;
  code <- match dict_get (function_name, description) cache with
          | Some code => ret code
          | None =>
              code <- generate_function function_name description ;;
              _ <- modify (fun s => with_cache s (dict_set (function_cache s)
                                                   (function_name, description) code)) ;;
              _ <- save_cache ;;
              ret code
          end ;;
  _ <- log INFO ("Generated code:" ++ nl ++ nl ++ code ++ nl) ;;
  _ <- modify (fun s => with_codes s (function_codes s ++ [code])) ;;
  ret (EName (str_const function_name)).

(** The attribute [.s] of an argument node: the value of a [Constant],
    an [AttributeError] on any other node. *)
Definition attr_s (e : expr) : M pyconst :=
  match e with
  | EConst c => ret c
  | _ => raise (AttributeError ("'" ++ node_type e ++ "' object has no attribute 's'"))
  end.

Definition is_sid (f : expr) : bool :=
  match f with
  | EName id => String.eqb id "sid"
  | _ => false
  end.

Definition pos (l c : Z) : string := repr_int l ++ ":" ++ repr_int c.

Definition quoted (s : string) : string := String dq (s ++ String dq EmptyString).

(** [NodeTransformer.visit] with the [visit_Call] override; the other
    nodes go through [generic_visit], which visits the fields in order. *)
Fixpoint visit (e : expr) : M expr :=
  match e with
  | EName _ | EConst _ => ret e
  | ENode tag cs => cs' <- mapM visit cs ;; ret (ENode tag cs')
  | ECall l c f args =>
      if is_sid f then
        match args with
        | [d] =>
            dv <- attr_s d ;;
            match dv with
            | PStr desc =>
                let function_name := replace_char " " "_" desc in
                _ <- log INFO ("Generating sid function at " ++ pos l c
                               ++ " described as " ++ quoted desc) ;;
                use_marker (PStr function_name) (PStr desc)
            | PInt _ => raise (AttributeError "'int' object has no attribute 'replace'")
            end
        | [n; d] =>
            function_name <- attr_s n ;;
            description <- attr_s d ;;
            _ <- log INFO ("Generating sid function at " ++ pos l c ++ " named "
                           ++ quoted (str_const function_name) ++ " described as "
                           ++ quoted (str_const description)) ;;
            use_marker function_name description
        | _ =>
            _ <- log ERROR ("Wrong number of arguments at " ++ pos l c ++ "! Skipping.") ;;
            f' <- visit f ;; args' <- mapM visit args ;; ret (ECall l c f' args')
        end
      else f' <- visit f ;; args' <- mapM visit args ;; ret (ECall l c f' args')
  end.

Definition visit_stmt (st : stmt) : M stmt :=
  match st with
  | SExpr e => e' <- visit e ;; ret (SExpr e')
  | SAssign t e => e' <- visit e ;; ret (SAssign t e')
  end.

Definition visit_module (m : pmodule) : M pmodule := mapM visit_stmt m.

Definition sid_compiler (input_path output_path : string) : M unit :=
  src <- gets (fun s => file_get input_path (files s)) ;;
  match src with
  | None => log ERROR ("Failed to read input file: No such file or directory: " ++ repr_str input_path)
  | Some code =>
      match py_parse code with
      | None => raise (SyntaxError "invalid syntax")
      | Some module =>
          _ <- new_transformer ;;
          module' <- visit_module module ;;
          codes <- gets function_codes ;;
          let new_code := join (nl ++ nl) codes ++ py_unparse module' in
          ro <- gets read_only ;;
          if existsb (String.eqb output_path) ro
          then log ERROR ("Failed to write output file: Permission denied: " ++ repr_str output_path)
          else modify (fun s => with_files s (file_set output_path new_code (files s)))
      end
  end.

(** [interactive_mode()], given the line [input()] returns; the result is
    the text [print] writes (the f-string and the newline [print] adds). *)
Definition interactive_mode (description : string) : M string :=
  _ <- new_transformer ;;
  function_code <- generate_function (PStr (replace_char " " "_" description)) (PStr description) ;;
  ret ("Generated code:" ++ nl ++ nl ++ function_code ++ nl ++ nl).

End Program.

(** ** The command line *)

(** [parser.parse_args()] with the two optional positionals [input_path]
    and [output_path] ([nargs='?']), for a command line of positional
    arguments (none starting with ['-']). *)
Inductive parsed_args :=
| Namespace (input_path output_path : option string)
| ArgError (msg : string).

Definition parse_args (argv : list string) : parsed_args :=
  match argv with
  | [] => Namespace None None
  | [a] => Namespace (Some a) None
  | [a; b] => Namespace (Some a) (Some b)
  | _ :: _ :: extra => ArgError ("unrecognized arguments: " ++ join " " extra)
  end.

Inductive main_action :=
| RunBatch (input_path output_path : string)
| RunInteractive
| UsageExit (msg : string).

(** The [__main__] block: [if args.input_path and args.output_path]. *)
Definition main (argv : list string) : main_action :=
  match parse_args argv with
  | ArgError m => UsageExit m
  | Namespace (Some (String _ _ as i)) (Some (String _ _ as o)) => RunBatch i o
  | Namespace _ _ => RunInteractive
  end.

Definition starts_non_digit (s : string) : Prop :=
  match s with
  | EmptyString => True
  | String c _ => digit_of c Decimal.Nil = None
  end.

Definition starts_sep (s : string) : Prop :=
  match s with
  | String c _ => c = ","%char \/ c = ")"%char
  | EmptyString => False
  end.

(** What [load_cache] leaves in [function_cache] for a cache file. *)
Definition loaded (f : cache_file_state) : list (key * string) :=
  match f with
  | CacheJson obj =>
      match decode_cache obj [] with
      | Some d => d
      | None => []
      end
  | _ => []
  end.

Definition keys (d : list (key * string)) : list key := map fst d.

(** The cache file and the in-memory cache agree: loading the file gives
    the table, whose keys are distinct, and the file can be written. *)
Definition cache_inv (s : state) : Prop :=
  cache_writable s = true /\ loaded (cache_file s) = function_cache s
  /\ NoDup (keys (function_cache s)).

(** The argument lists of a marker call with string literals and the key
    the code computes from them. *)
Inductive marker_args : list expr -> pyconst -> pyconst -> Prop :=
| MarkerDesc (d : string) :
    marker_args [EConst (PStr d)] (PStr (replace_char " " "_" d)) (PStr d)
| MarkerNamed (n d : string) :
    marker_args [EConst (PStr n); EConst (PStr d)] (PStr n) (PStr d).

(** The name the spec derives from a description: every space replaced by
    an underscore, character by character. *)
Definition spaces_to_underscores (d : string) : string :=
  string_of_list_ascii
    (map (fun ch => if Ascii.eqb ch " " then "_"%char else ch) (list_ascii_of_string d)).

(** A module made of the statement [sid(...)] at each of the positions. *)
Definition marker_stmts (args : list expr) (sites : list (Z * Z)) : pmodule :=
  map (fun lc => SExpr (ECall (fst lc) (snd lc) (EName "sid") args)) sites.

(** The expression of a statement. *)
Definition stmt_expr (st : stmt) : expr :=
  match st with
  | SExpr e => e
  | SAssign _ e => e
  end.

(** The number of marker sites [visit] answers in [e]: a [sid] call with
    one or two arguments counts once (its arguments are not visited); any
    other call or node counts the sites of its visited children. *)
Fixpoint marker_count (e : expr) : nat :=
  match e with
  | EName _ | EConst _ => 0
  | ENode _ cs => list_sum (map marker_count cs)
  | ECall _ _ f args =>
      if is_sid f then
        match args with
        | [_] | [_; _] => 1
        | _ => marker_count f + list_sum (map marker_count args)
        end
      else marker_count f + list_sum (map marker_count args)
  end.

Definition module_marker_count (m : pmodule) : nat :=
  list_sum (map (fun st => marker_count (stmt_expr st)) m).

(** No call to [sid] anywhere in [e]. *)
Fixpoint sid_free (e : expr) : bool :=
  match e with
  | EName _ | EConst _ => true
  | ENode _ cs => forallb sid_free cs
  | ECall _ _ f args => negb (is_sid f) && sid_free f && forallb sid_free args
  end.

(** ** Concrete collaborators and states for the examples *)

Definition ex_token_endpoint (_ : Z) : token_response := TRResponse 200 (TBToken "tok").

Definition ex_code : string := "def add_two_numbers(a,b):" ++ nl ++ " return a+b".

Definition ex_backend (_ _ : string) : completion_response := CRResponse 200 (PContent ex_code).

Definition ex_backend_500 (_ _ : string) : completion_response :=
  CRResponse 500 (PContent "Internal Server Error").

Definition ex_compile (_ : string) : option string := None.

Definition ex_src : string := "sid('add two numbers')" ++ nl ++ "sid('add two numbers')".

Definition ex_args : list expr := [EConst (PStr "add two numbers")].

Definition ex_parse (src : string) : option pmodule :=
  if String.eqb src ex_src then Some (marker_stmts ex_args [(1, 0); (2, 0)]%Z) else None.

Definition ex_unparse (m : pmodule) : string :=
  join nl (map (fun st => match st with
                          | SExpr (EName id) => id
                          | SAssign t (EName id) => t ++ " = " ++ id
                          | _ => "..."
                          end) m).

Definition ex_state (fs : list (string * string)) : state :=
  {| files := fs; read_only := []; cache_file := CacheAbsent; cache_writable := true;
     clock := 0; requests := []; logs := []; function_codes := []; function_cache := [];
     token := VNone; token_time := 0 |}.

Definition ex_run1 : result pmodule * state :=
  bind (new_transformer ex_token_endpoint)
       (fun _ => visit_module ex_token_endpoint ex_backend ex_compile
                   [SAssign "result" (ECall 1 9 (EName "sid") ex_args)])
       (ex_state []).

(** A state with given files, read-only paths and cache-file permission. *)
Definition ex_config (fs : list (string * string)) (ro : list string) (w : bool) : state :=
  {| files := fs; read_only := ro; cache_file := CacheAbsent; cache_writable := w;
     clock := 0; requests := []; logs := []; function_codes := []; function_cache := [];
     token := VNone; token_time := 0 |}.

Definition ex_backend_raise (_ _ : string) : completion_response := CRRaise "timed out".

Definition ex_table : list (key * string) :=
  [((PStr "a", PStr "b"), "x"); ((PInt 1, PStr "c"), "y")].

Definition ex_bad_cache : cache_file_state :=
  CacheJson [(encode_key (PStr "a", PStr "b"), "x"); ("oops", "y")].

(** [sid('add two numbers')] followed by [sid(x)]. *)
Definition ex_abort_module : pmodule :=
  [SExpr (ECall 1 0 (EName "sid") ex_args); SExpr (ECall 2 0 (EName "sid") [EName "x"])].

(** [y = f(x)] *)
Definition ex_plain_module : pmodule := [SAssign "y" (ECall 1 4 (EName "f") [EName "x"])].

(** * Proofs *)

Example encode_key_ex :
  encode_key (PStr "it's", PStr "a, b")
  = "(" ++ String dq ("it's" ++ String dq (", 'a, b')")).
Proof. reflexivity. Qed.

Example eval_key_ex :
  let k := (PStr ("it's " ++ String dq "\x"), PInt (-42)) in eval_key (encode_key k) = Some k.
Proof. reflexivity. Qed.

(** ** Round trip of the persisted key encoding *)

Lemma string_app_assoc (a b c : string) : (a ++ b) ++ c = a ++ (b ++ c).
Proof. induction a as [|x a IH]; simpl; [reflexivity | now rewrite IH]. Qed.

Lemma lit_body_escape_char_sq (c : ascii) (rest : string) :
  lit_body sq (escape_char sq c ++ rest) = cons_res c (lit_body sq rest).
Proof.
  destruct c as [[] [] [] [] [] [] [] []]; reflexivity.
Qed.

Lemma lit_body_escape_char_dq (c : ascii) (rest : string) :
  lit_body dq (escape_char dq c ++ rest) = cons_res c (lit_body dq rest).
Proof.
  destruct c as [[] [] [] [] [] [] [] []]; reflexivity.
Qed.

Lemma lit_body_escape_char (q c : ascii) (rest : string) :
  q = sq \/ q = dq ->
  lit_body q (escape_char q c ++ rest) = cons_res c (lit_body q rest).
Proof.
  intros [-> | ->]; [apply lit_body_escape_char_sq | apply lit_body_escape_char_dq].
Qed.

Lemma lit_body_escape (q : ascii) (s rest : string) :
  q = sq \/ q = dq ->
  lit_body q (escape q s ++ String q rest) = Some (s, rest).
Proof.
  intros Hq. induction s as [|c s IH]; simpl.
  - rewrite Ascii.eqb_refl. reflexivity.
  - rewrite string_app_assoc, lit_body_escape_char by exact Hq.
    rewrite IH. reflexivity.
Qed.

Lemma digits_uint (u : Decimal.uint) (rest : string) :
  starts_non_digit rest ->
  digits (uint_to_string u ++ rest) = (u, rest).
Proof.
  intros Hr. induction u; simpl;
    try (rewrite IHu; reflexivity).
  destruct rest as [|c r]; simpl in *; [reflexivity | now rewrite Hr].
Qed.

Lemma to_uint_pos_not_nil (p : positive) : N.to_uint (Npos p) <> Decimal.Nil.
Proof.
  intros H. pose proof (DecimalN.Unsigned.of_to (Npos p)) as E.
  rewrite H in E. discriminate E.
Qed.

Lemma int_lit_pos (p : positive) (rest : string) :
  starts_non_digit rest ->
  int_lit (uint_to_string (N.to_uint (Npos p)) ++ rest) = Some (Zpos p, rest).
Proof.
  intros Hr. unfold int_lit. rewrite digits_uint by exact Hr.
  pose proof (to_uint_pos_not_nil p) as Hn.
  pose proof (DecimalN.Unsigned.of_to (Npos p)) as E.
  destruct (N.to_uint (Npos p)); try contradiction; rewrite E; reflexivity.
Qed.

Lemma starts_sep_non_digit (s : string) : starts_sep s -> starts_non_digit s.
Proof. destruct s as [|c r]; simpl; [intros [] | intros [-> | ->]; reflexivity]. Qed.

Lemma eval_const_repr (c : pyconst) (rest : string) :
  starts_sep rest ->
  eval_const (repr_const c ++ rest) = Some (c, rest).
Proof.
  intros Hr. apply starts_sep_non_digit in Hr.
  destruct c as [s | z]; simpl.
  - unfold repr_str.
    set (q := if has_char sq s && negb (has_char dq s) then dq else sq).
    assert (Hq : q = sq \/ q = dq)
      by (unfold q; destruct (_ && _); [right | left]; reflexivity).
    simpl. rewrite string_app_assoc. simpl.
    assert (Hqq : Ascii.eqb q sq || Ascii.eqb q dq = true)
      by (destruct Hq as [-> | ->]; reflexivity).
    rewrite Hqq, lit_body_escape by exact Hq. reflexivity.
  - destruct z as [|p|p]; cbn [repr_const repr_int].
    + simpl. unfold int_lit; simpl. destruct rest as [|x r]; simpl in *; [reflexivity | now rewrite Hr].
    + pose proof (int_lit_pos p rest Hr) as E.
      destruct (uint_to_string (N.to_uint (Npos p))) as [|d t] eqn:Ed.
      * exfalso. generalize (to_uint_pos_not_nil p).
        destruct (N.to_uint (Npos p)); simpl in Ed; congruence.
      * simpl. simpl in E.
        assert (Hd : Ascii.eqb d sq || Ascii.eqb d dq = false /\ Ascii.eqb d "-" = false).
        { destruct (N.to_uint (Npos p)); simpl in Ed; inversion Ed; subst; split; reflexivity. }
        destruct Hd as [-> ->]. rewrite E. reflexivity.
    + pose proof (int_lit_pos p rest Hr) as E. simpl in *. rewrite E. reflexivity.
Qed.

Lemma eval_key_encode (k : key) : eval_key (encode_key k) = Some k.
Proof.
  destruct k as [a b]. unfold encode_key, eval_key. simpl.
  rewrite eval_const_repr by (simpl; now left). simpl.
  rewrite eval_const_repr by (simpl; now right). reflexivity.
Qed.


(** ** Dicts and the persisted table *)

Lemma pyconst_eqb_eq (a b : pyconst) : pyconst_eqb a b = true <-> a = b.
Proof.
  destruct a, b; simpl; split; intros H; try discriminate; try congruence.
  - apply String.eqb_eq in H. now subst.
  - injection H as ->. apply String.eqb_refl.
  - apply Z.eqb_eq in H. now subst.
  - injection H as ->. apply Z.eqb_refl.
Qed.

Lemma key_eqb_eq (a b : key) : key_eqb a b = true <-> a = b.
Proof.
  destruct a as [a1 a2], b as [b1 b2]. unfold key_eqb; simpl.
  rewrite andb_true_iff, !pyconst_eqb_eq. split; [intros [-> ->] | intros H; inversion H]; auto.
Qed.

Lemma key_eqb_refl (k : key) : key_eqb k k = true.
Proof. now apply key_eqb_eq. Qed.

Lemma key_eqb_false (a b : key) : a <> b -> key_eqb a b = false.
Proof. intros H. destruct (key_eqb a b) eqn:E; [apply key_eqb_eq in E; contradiction | reflexivity]. Qed.

Lemma key_eq_dec (a b : key) : {a = b} + {a <> b}.
Proof.
  destruct (key_eqb a b) eqn:E; [left; now apply key_eqb_eq | right].
  intros ->. now rewrite key_eqb_refl in E.
Defined.

Lemma dict_get_set_same (d : list (key * string)) (k : key) (v : string) :
  dict_get k (dict_set d k v) = Some v.
Proof.
  induction d as [|[k' v'] r IH]; simpl.
  - now rewrite key_eqb_refl.
  - destruct (key_eqb k k') eqn:E; simpl; rewrite ?E; [reflexivity | exact IH].
Qed.

Lemma dict_set_absent (d : list (key * string)) (k : key) (v : string) :
  ~ In k (keys d) -> dict_set d k v = (d ++ [(k, v)])%list.
Proof.
  induction d as [|[k' v'] r IH]; simpl; intros Hn; [reflexivity|].
  rewrite key_eqb_false by (intros ->; auto). f_equal. apply IH. auto.
Qed.

Lemma keys_dict_set_present (d : list (key * string)) (k : key) (v : string) :
  In k (keys d) -> keys (dict_set d k v) = keys d.
Proof.
  induction d as [|[k' v'] r IH]; simpl; intros Hin; [contradiction|].
  destruct (key_eqb k k') eqn:E; simpl; [reflexivity|].
  f_equal. apply IH. destruct Hin as [-> | Hin]; [now rewrite key_eqb_refl in E | exact Hin].
Qed.

Lemma keys_app (d e : list (key * string)) : keys (d ++ e)%list = (keys d ++ keys e)%list.
Proof. apply map_app. Qed.

Lemma nodup_snoc {A} (l : list A) (x : A) : NoDup l -> ~ In x l -> NoDup (l ++ [x])%list.
Proof.
  intros Hl Hx. apply (Permutation_NoDup (Permutation_cons_append l x)).
  now constructor.
Qed.

Lemma dict_set_nodup (d : list (key * string)) (k : key) (v : string) :
  NoDup (keys d) -> NoDup (keys (dict_set d k v)).
Proof.
  intros Hd. destruct (in_dec key_eq_dec k (keys d)) as [Hin | Hn].
  - now rewrite keys_dict_set_present.
  - rewrite dict_set_absent, keys_app by exact Hn. now apply nodup_snoc.
Qed.

Lemma nodup_app_not_in (l r : list key) (k : key) : NoDup (l ++ k :: r)%list -> ~ In k l.
Proof.
  intros H Hin. apply NoDup_remove_2 in H. apply H. apply in_or_app. now left.
Qed.

Lemma decode_encode_cache (d acc : list (key * string)) :
  NoDup (keys (acc ++ d)%list) -> decode_cache (encode_cache d) acc = Some (acc ++ d)%list.
Proof.
  revert acc. induction d as [|[k v] r IH]; intros acc Hnd; unfold encode_cache in *; cbn [map decode_cache fst snd].
  - now rewrite app_nil_r.
  - rewrite eval_key_encode.
    assert (Hk : ~ In k (keys acc)).
    { rewrite keys_app in Hnd. simpl in Hnd. exact (nodup_app_not_in _ _ _ Hnd). }
    rewrite dict_set_absent by exact Hk.
    rewrite IH; rewrite <- app_assoc; [reflexivity | exact Hnd].
Qed.

Lemma decode_cache_nodup (obj : list (string * string)) (acc d : list (key * string)) :
  NoDup (keys acc) -> decode_cache obj acc = Some d -> NoDup (keys d).
Proof.
  revert acc. induction obj as [|[ks v] r IH]; intros acc Hacc Hdec; simpl in Hdec.
  - now injection Hdec as <-.
  - destruct (eval_key ks) as [k|]; [|discriminate].
    exact (IH _ (dict_set_nodup _ _ _ Hacc) Hdec).
Qed.

Lemma loaded_encode_cache (d : list (key * string)) :
  NoDup (keys d) -> loaded (CacheJson (encode_cache d)) = d.
Proof.
  intros Hd. simpl. rewrite decode_encode_cache; [reflexivity | exact Hd].
Qed.

Lemma loaded_nodup (f : cache_file_state) : NoDup (keys (loaded f)).
Proof.
  destruct f as [|obj|m]; simpl; try constructor.
  destruct (decode_cache obj []) as [d|] eqn:E; [|constructor].
  exact (decode_cache_nodup obj [] d (NoDup_nil _) E).
Qed.

(** ** Induction on expressions with their argument lists *)

Section ExprInd.
Variable P : expr -> Prop.
Hypothesis HName : forall id, P (EName id).
Hypothesis HConst : forall c, P (EConst c).
Hypothesis HCall : forall l c f args, P f -> Forall P args -> P (ECall l c f args).
Hypothesis HNode : forall tag cs, Forall P cs -> P (ENode tag cs).

Fixpoint expr_ind_deep (e : expr) : P e :=
  match e with
  | EName id => HName id
  | EConst c => HConst c
  | ECall l c f args =>
      HCall l c f args (expr_ind_deep f)
        ((fix go (xs : list expr) : Forall P xs :=
            match xs with
            | [] => Forall_nil P
            | x :: r => Forall_cons x (expr_ind_deep x) (go r)
            end) args)
  | ENode tag cs =>
      HNode tag cs
        ((fix go (xs : list expr) : Forall P xs :=
            match xs with
            | [] => Forall_nil P
            | x :: r => Forall_cons x (expr_ind_deep x) (go r)
            end) cs)
  end.
End ExprInd.

(** ** Steps that keep the cache file and the table in agreement *)

Definition preserves {A} (m : M A) : Prop :=
  forall s, cache_inv s -> cache_inv (snd (m s)).

Lemma preserves_ret {A} (a : A) : preserves (ret a).
Proof. intros s H. exact H. Qed.

Lemma preserves_raise {A} (e : exn) : preserves (A := A) (raise e).
Proof. intros s H. exact H. Qed.

Lemma preserves_bind {A B} (m : M A) (k : A -> M B) :
  preserves m -> (forall a, preserves (k a)) -> preserves (bind m k).
Proof.
  intros Hm Hk s Hs. unfold bind. specialize (Hm s Hs).
  destruct (m s) as [[a|e] s'] eqn:E; simpl in *; [exact (Hk a s' Hm) | exact Hm].
Qed.

Lemma preserves_gets {A} (f : state -> A) : preserves (gets f).
Proof. intros s H. exact H. Qed.

Lemma preserves_mapM {A B} (f : A -> M B) (l : list A) :
  Forall (fun x => preserves (f x)) l -> preserves (mapM f l).
Proof.
  induction 1 as [|x r Hx Hr IH]; simpl.
  - apply preserves_ret.
  - apply preserves_bind; [exact Hx | intros y].
    apply preserves_bind; [exact IH | intros ys]. apply preserves_ret.
Qed.

Lemma preserves_log (lv : level) (msg : string) : preserves (log lv msg).
Proof. intros s H. exact H. Qed.

Lemma preserves_append_code (code : string) :
  preserves (modify (fun s => with_codes s (function_codes s ++ [code])%list)).
Proof. intros s H. exact H. Qed.

Create HintDb preserve.

#[export] Hint Resolve preserves_ret preserves_raise preserves_gets preserves_log
  preserves_append_code : preserve.

#[export] Hint Resolve preserves_mapM : preserve.
#[export] Hint Constructors Forall : preserve.

Ltac preserve_step :=
  repeat first [ solve [auto with preserve]
               | apply preserves_bind; [solve [auto with preserve] | intros ?] ].

Section Transformer.

Variable token_endpoint : Z -> token_response.
Variable backend : string -> string -> completion_response.
Variable py_compile : string -> option string.

Local Abbreviation gen := (generate_function token_endpoint backend py_compile).
Local Abbreviation use := (use_marker token_endpoint backend py_compile).
Local Abbreviation vis := (visit token_endpoint backend py_compile).

(** The token [generate_function] sends, after its refresh check. *)
Definition sent_token (s : state) : pyval :=
  if Z.ltb 600 (clock s - token_time s) then get_token (token_endpoint (clock s)) else token s.

Lemma generate_function_spec (fn ds : pyconst) (s : state) :
  exists code s',
    gen fn ds s = (Ok code, s')
    /\ function_cache s' = function_cache s /\ function_codes s' = function_codes s
    /\ cache_file s' = cache_file s /\ cache_writable s' = cache_writable s
    /\ files s' = files s /\ read_only s' = read_only s
    /\ token s' = sent_token s
    /\ requests s' = (requests s ++ [(("Bearer " ++ str_val (sent_token s))%string, prompt_text fn ds)])%list
    /\ code = match backend ("Bearer " ++ str_val (sent_token s)) (prompt_text fn ds) with
              | CRRaise _ => EmptyString
              | CRResponse status body =>
                  if negb (Z.eqb status 200) then "Response 404"
                  else match body with
                       | PMalformed _ => EmptyString
                       | PContent content =>
                           let c := match search_code_block content with
                                    | Some b => b
                                    | None => content
                                    end in
                           match py_compile c with
                           | None => c
                           | Some _ => EmptyString
                           end
                       end
              end.
Proof.
  unfold generate_function, sent_token, refresh_token, bind, gets, post_completion,
    generation_failed, log, modify, ret.
  destruct (Z.ltb 600 (clock s - token_time s)); simpl;
    destruct (backend _ _) as [m | status body]; simpl;
    try (eexists; eexists; repeat split; reflexivity);
    destruct (negb (Z.eqb status 200)); simpl;
    try (eexists; eexists; repeat split; reflexivity);
    destruct body as [content | m]; simpl;
    try (eexists; eexists; repeat split; reflexivity);
    destruct (py_compile _); simpl; eexists; eexists; repeat split; reflexivity.
Qed.

Lemma preserves_generate (fn ds : pyconst) : preserves (gen fn ds).
Proof.
  intros s (Hw & Hl & Hn). destruct (generate_function_spec fn ds s)
    as (code & s' & E & Hc & _ & Hf & Hw' & _). rewrite E. simpl.
  unfold cache_inv. rewrite Hc, Hf, Hw'. auto.
Qed.

Lemma preserves_save_cache : preserves save_cache.
Proof.
  intros s (Hw & Hl & Hn). cbv [save_cache bind gets modify]. simpl. rewrite Hw. simpl.
  unfold cache_inv; simpl. repeat split; [exact Hw | | exact Hn].
  now apply loaded_encode_cache.
Qed.

(** Line 73-74: the insertion followed by the write of the whole table. *)
Lemma preserves_insert_save (k : key) (code : string) :
  preserves (bind (modify (fun s => with_cache s (dict_set (function_cache s) k code)))
                  (fun _ => bind save_cache (fun _ => ret code))).
Proof.
  intros s (Hw & Hl & Hn). cbv [save_cache bind gets modify ret]. simpl.
  rewrite Hw. simpl. unfold cache_inv; simpl. repeat split; [exact Hw | |].
  - apply loaded_encode_cache. now apply dict_set_nodup.
  - now apply dict_set_nodup.
Qed.

Lemma preserves_use_marker (fn ds : pyconst) : preserves (use fn ds).
Proof.
  unfold use_marker. apply preserves_bind; [apply preserves_gets | intros cache].
  apply preserves_bind.
  - destruct (dict_get (fn, ds) cache); [apply preserves_ret|].
    apply preserves_bind; [apply preserves_generate | intros code].
    apply preserves_insert_save.
  - intros code. preserve_step.
Qed.

#[local] Hint Resolve preserves_use_marker preserves_generate : preserve.

Lemma preserves_attr_s (e : expr) : preserves (attr_s e).
Proof. destruct e; intros s H; exact H. Qed.

#[local] Hint Resolve preserves_attr_s : preserve.

Lemma preserves_visit (e : expr) : preserves (vis e).
Proof.
  induction e as [id | c | l c f args Hf Hargs | tag cs Hcs] using expr_ind_deep; simpl.
  - apply preserves_ret.
  - apply preserves_ret.
  - destruct (is_sid f).
    + destruct args as [|d [|n [|x r]]].
      * preserve_step.
      * apply preserves_bind; [apply preserves_attr_s | intros [desc | z]]; preserve_step.
      * preserve_step.
      * preserve_step.
    + preserve_step.
  - preserve_step.
Qed.

Lemma preserves_visit_stmt (st : stmt) : preserves (visit_stmt token_endpoint backend py_compile st).
Proof.
  destruct st as [e | t e]; simpl;
    (apply preserves_bind; [apply preserves_visit | intros e']; apply preserves_ret).
Qed.

Lemma preserves_visit_module (m : pmodule) :
  preserves (visit_module token_endpoint backend py_compile m).
Proof.
  unfold visit_module. apply preserves_mapM. apply Forall_forall.
  intros st _. apply preserves_visit_stmt.
Qed.

Lemma new_transformer_spec (s : state) :
  let s' := snd (new_transformer token_endpoint s) in
  function_cache s' = loaded (cache_file s) /\ function_codes s' = []
  /\ cache_file s' = cache_file s /\ cache_writable s' = cache_writable s
  /\ requests s' = requests s /\ files s' = files s /\ read_only s' = read_only s.
Proof.
  cbv [new_transformer load_cache bind modify gets log]. simpl.
  destruct (cache_file s) as [|obj|m] eqn:E; simpl;
    [| destruct (decode_cache obj []); simpl |]; repeat split; exact E.
Qed.

Lemma new_transformer_ok (s : state) : fst (new_transformer token_endpoint s) = Ok tt.
Proof.
  cbv [new_transformer load_cache bind modify gets log]. simpl.
  destruct (cache_file s) as [|obj|m]; simpl; [| destruct (decode_cache obj []) |]; reflexivity.
Qed.

Lemma new_transformer_inv (s : state) :
  cache_writable s = true -> cache_inv (snd (new_transformer token_endpoint s)).
Proof.
  intros Hw. destruct (new_transformer_spec s) as (Hc & _ & Hf & Hw' & _).
  unfold cache_inv. rewrite Hc, Hf, Hw'. split; [exact Hw | split; [reflexivity | apply loaded_nodup]].
Qed.

Lemma visit_marker (l c : Z) (args : list expr) (fn ds : pyconst) :
  marker_args args fn ds ->
  exists msg, vis (ECall l c (EName "sid") args) = bind (log INFO msg) (fun _ => use fn ds).
Proof. intros []; eexists; reflexivity. Qed.

Lemma use_marker_hit (fn ds : pyconst) (s : state) (v : string) :
  dict_get (fn, ds) (function_cache s) = Some v ->
  exists s', use fn ds s = (Ok (EName (str_const fn)), s')
    /\ function_codes s' = (function_codes s ++ [v])%list
    /\ requests s' = requests s /\ function_cache s' = function_cache s
    /\ cache_file s' = cache_file s /\ cache_writable s' = cache_writable s
    /\ files s' = files s /\ read_only s' = read_only s.
Proof.
  intros Hv. cbv [use_marker bind gets ret log modify]. simpl. rewrite Hv. simpl.
  eexists. repeat split.
Qed.

Lemma use_marker_miss (fn ds : pyconst) (s : state) :
  dict_get (fn, ds) (function_cache s) = None ->
  exists code s1 s', gen fn ds s = (Ok code, s1)
    /\ use fn ds s = (Ok (EName (str_const fn)), s')
    /\ function_cache s' = dict_set (function_cache s) (fn, ds) code
    /\ function_codes s' = (function_codes s ++ [code])%list
    /\ cache_file s' = (if cache_writable s then CacheJson (encode_cache (function_cache s'))
                        else cache_file s)
    /\ cache_writable s' = cache_writable s
    /\ requests s' = requests s1 /\ files s' = files s /\ read_only s' = read_only s.
Proof.
  intros Hn.
  destruct (generate_function_spec fn ds s)
    as (code & s1 & E & Hc & Hcodes & Hf & Hw & Hfiles & Hro & _).
  exists code, s1.
  cbv [use_marker bind gets ret log modify save_cache]. simpl. rewrite Hn.
  cbv [bind] in E. rewrite E. simpl. rewrite Hw.
  destruct (cache_writable s); simpl;
    (eexists; split; [reflexivity | split; [reflexivity |]];
     simpl; rewrite ?Hc, ?Hcodes, ?Hf, ?Hw, ?Hfiles, ?Hro; repeat split).
Qed.

Lemma use_marker_spec (fn ds : pyconst) (s : state) :
  exists code s', use fn ds s = (Ok (EName (str_const fn)), s')
    /\ dict_get (fn, ds) (function_cache s') = Some code
    /\ function_codes s' = (function_codes s ++ [code])%list
    /\ files s' = files s /\ read_only s' = read_only s
    /\ (forall v, dict_get (fn, ds) (function_cache s) = Some v ->
          code = v /\ function_cache s' = function_cache s).
Proof.
  destruct (dict_get (fn, ds) (function_cache s)) as [v|] eqn:Hk.
  - destruct (use_marker_hit fn ds s v Hk) as (s' & E & Hcodes & _ & Hc & _ & _ & Hf & Hro).
    exists v, s'. rewrite Hc.
    refine (conj E (conj Hk (conj Hcodes (conj Hf (conj Hro _))))).
    intros v' Hv'. split; [congruence | reflexivity].
  - destruct (use_marker_miss fn ds s Hk)
      as (code & s1 & s' & _ & E & Hc & Hcodes & _ & _ & _ & Hf & Hro).
    exists code, s'. rewrite Hc, dict_get_set_same.
    refine (conj E (conj eq_refl (conj Hcodes (conj Hf (conj Hro _))))).
    intros v' Hv'. discriminate.
Qed.

Lemma visit_marker_spec (l c : Z) (args : list expr) (fn ds : pyconst) (s : state) :
  marker_args args fn ds ->
  exists code s', vis (ECall l c (EName "sid") args) s = (Ok (EName (str_const fn)), s')
    /\ dict_get (fn, ds) (function_cache s') = Some code
    /\ function_codes s' = (function_codes s ++ [code])%list
    /\ files s' = files s /\ read_only s' = read_only s
    /\ (forall v, dict_get (fn, ds) (function_cache s) = Some v ->
          code = v /\ function_cache s' = function_cache s).
Proof.
  intros Hm. destruct (visit_marker l c args fn ds Hm) as [msg ->].
  exact (use_marker_spec fn ds (with_logs s (logs s ++ [(INFO, msg)])%list)).
Qed.

Lemma replace_char_spaces (d : string) : replace_char " " "_" d = spaces_to_underscores d.
Proof.
  unfold spaces_to_underscores. induction d as [|ch d IH]; simpl; [reflexivity|].
  now rewrite IH.
Qed.

(** ** The claims about the transformer *)

(** C1 (malformed marker calls): a [sid] call whose single argument is not
    a literal, here [sid(x)], is not skipped with a logged error: reading
    [.s] of the [Name] node raises [AttributeError], which propagates out of
    the visit with no error logged. *)
Theorem sid_nonliteral_argument_raises (s : state) :
  vis (ECall 1 0 (EName "sid") [EName "x"]) s
  = (Raise (AttributeError "'Name' object has no attribute 's'"), s).
Proof. reflexivity. Qed.

(** For the other malformed shape, a [sid] call with zero or three or more
    arguments, the code logs the error and only visits the children. *)
Lemma visit_sid_wrong_arity (l c : Z) (args : list expr) :
  length args <> 1%nat -> length args <> 2%nat ->
  vis (ECall l c (EName "sid") args)
  = (_ <- log ERROR ("Wrong number of arguments at " ++ pos l c ++ "! Skipping.") ;;
     args' <- mapM vis args ;; ret (ECall l c (EName "sid") args')).
Proof.
  intros H1 H2. destruct args as [|a [|b [|x r]]]; simpl in *; try lia; reflexivity.
Qed.

(** C2 (generation failure, as the code does it): at a marker site whose
    key is not cached, when the request the code sends raises, the empty
    string is stored under the key; when it is answered with a non-200
    status, the sentinel text ["Response 404"] is stored.  In both cases the
    site becomes [Name(function_name)] and the visit does not raise. *)
Theorem generation_failure_stored (l c : Z) (args : list expr) (fn ds : pyconst)
    (s : state) (stored : string) :
  marker_args args fn ds ->
  dict_get (fn, ds) (function_cache s) = None ->
  ((exists m, backend ("Bearer " ++ str_val (sent_token s)) (prompt_text fn ds) = CRRaise m)
     /\ stored = EmptyString
   \/ (exists status body,
         backend ("Bearer " ++ str_val (sent_token s)) (prompt_text fn ds)
         = CRResponse status body /\ status <> 200%Z)
     /\ stored = "Response 404") ->
  exists s', vis (ECall l c (EName "sid") args) s = (Ok (EName (str_const fn)), s')
    /\ dict_get (fn, ds) (function_cache s') = Some stored.
Proof.
  intros Hm Hk Hfail. destruct (visit_marker l c args fn ds Hm) as [msg ->].
  set (sl := with_logs s (logs s ++ [(INFO, msg)])%list).
  assert (Hsent : sent_token sl = sent_token s) by reflexivity.
  destruct (use_marker_miss fn ds sl Hk) as (code & s1 & s' & Eg & Eu & Hc & _).
  destruct (generate_function_spec fn ds sl) as (code' & s1' & Eg' & _ & _ & _ & _ & _ & _ & _ & _ & Hcode).
  rewrite Eg in Eg'. injection Eg' as <- _.
  exists s'. split; [exact Eu|]. rewrite Hc, dict_get_set_same. f_equal.
  rewrite Hsent in Hcode. rewrite Hcode.
  destruct Hfail as [([m E] & ->) | ((status & body & E & Hst) & ->)]; rewrite E; [reflexivity|].
  apply Z.eqb_neq in Hst. rewrite Hst. reflexivity.
Qed.


(** C6 (derived and explicit names): at [sid("D")] the name is [D] with
    every space replaced by an underscore; it is the name part of the key
    whose entry becomes the site's fragment and the substituted identifier.
    At [sid("N", "D")] the name [N] is used as it is, spaces included. *)
Theorem marker_names (l c : Z) :
  (forall (d : string) (s : state),
     exists code s',
       vis (ECall l c (EName "sid") [EConst (PStr d)]) s
       = (Ok (EName (spaces_to_underscores d)), s')
       /\ dict_get (PStr (spaces_to_underscores d), PStr d) (function_cache s') = Some code
       /\ function_codes s' = (function_codes s ++ [code])%list)
  /\ (forall (n d : string) (s : state),
     exists code s',
       vis (ECall l c (EName "sid") [EConst (PStr n); EConst (PStr d)]) s
       = (Ok (EName n), s')
       /\ dict_get (PStr n, PStr d) (function_cache s') = Some code
       /\ function_codes s' = (function_codes s ++ [code])%list).
Proof.
  split.
  - intros d s. rewrite <- replace_char_spaces.
    destruct (visit_marker_spec l c _ _ _ s (MarkerDesc d)) as (code & s' & E & Hk & Hc & _).
    exists code, s'. split; [exact E | split; assumption].
  - intros n d s.
    destruct (visit_marker_spec l c _ _ _ s (MarkerNamed n d)) as (code & s' & E & Hk & Hc & _).
    exists code, s'. split; [exact E | split; assumption].
Qed.

(** C7 (substitution by a reference): a marker site with literal
    arguments is replaced by the bare name [Name(function_name)], not by a
    call. *)
Theorem marker_site_becomes_name (l c : Z) (args : list expr) (fn ds : pyconst) (s : state) :
  marker_args args fn ds ->
  exists s', vis (ECall l c (EName "sid") args) s = (Ok (EName (str_const fn)), s').
Proof.
  intros Hm. destruct (visit_marker_spec l c args fn ds s Hm) as (code & s' & E & _).
  exists s'. exact E.
Qed.

(** C10 (credential failures): [get_token] returns [{"error": ...}] on a
    raised exception, on a non-200 status and on a 200 body that is not
    JSON, and [None] on a 200 body without a token; it has no raising path.
    [generate_function] always sends its request, with the header
    ["Bearer " + str(token)] for whatever value the token holds, e.g.
    [Bearer {'error': 'Received 401 HTTP status code'}], and a non-200
    answer to it gives the sentinel text. *)
Theorem credential_failure_reaches_request :
  (forall m, get_token (TRRaise m) = VErrorDict m)
  /\ (forall status body, status <> 200%Z ->
        get_token (TRResponse status body)
        = VErrorDict ("Received " ++ repr_int status ++ " HTTP status code"))
  /\ (forall m, get_token (TRResponse 200 (TBInvalidJson m)) = VErrorDict m)
  /\ get_token (TRResponse 200 TBNoToken) = VNone
  /\ "Bearer " ++ str_val (get_token (TRResponse 401 TBNoToken))
     = "Bearer {'error': 'Received 401 HTTP status code'}"
  /\ (forall fn ds s, exists code s',
        gen fn ds s = (Ok code, s')
        /\ requests s' = (requests s ++ [(("Bearer " ++ str_val (sent_token s))%string,
                                          prompt_text fn ds)])%list
        /\ (forall status body,
              backend ("Bearer " ++ str_val (sent_token s)) (prompt_text fn ds)
              = CRResponse status body -> status <> 200%Z -> code = "Response 404")).
Proof.
  split; [reflexivity|]. split.
  { intros status body Hst. simpl. apply Z.eqb_neq in Hst. now rewrite Hst. }
  split; [reflexivity|]. split; [reflexivity|]. split; [reflexivity|].
  intros fn ds s.
  destruct (generate_function_spec fn ds s) as (code & s' & E & _ & _ & _ & _ & _ & _ & _ & Hreq & Hcode).
  exists code, s'. split; [exact E|]. split; [exact Hreq|].
  intros status body Hb Hst. rewrite Hcode, Hb. apply Z.eqb_neq in Hst. now rewrite Hst.
Qed.

End Transformer.

(** ** The batch driver *)

Section Driver.

Variable token_endpoint : Z -> token_response.
Variable backend : string -> string -> completion_response.
Variable py_compile : string -> option string.
Variable py_parse : string -> option pmodule.
Variable py_unparse : pmodule -> string.

Local Abbreviation vis := (visit token_endpoint backend py_compile).
Local Abbreviation vmod := (visit_module token_endpoint backend py_compile).
Local Abbreviation compiler :=
  (sid_compiler token_endpoint backend py_compile py_parse py_unparse).

Lemma file_get_set (p c : string) (fs : list (string * string)) :
  file_get p (file_set p c fs) = Some c.
Proof.
  induction fs as [|[q c'] r IH]; simpl.
  - now rewrite String.eqb_refl.
  - destruct (String.eqb p q) eqn:E; simpl; rewrite ?E; [reflexivity | exact IH].
Qed.

Lemma visit_marker_stmt (l c : Z) (args : list expr) (fn ds : pyconst) (s : state) :
  marker_args args fn ds ->
  exists code s',
    visit_stmt token_endpoint backend py_compile (SExpr (ECall l c (EName "sid") args)) s
    = (Ok (SExpr (EName (str_const fn))), s')
    /\ dict_get (fn, ds) (function_cache s') = Some code
    /\ function_codes s' = (function_codes s ++ [code])%list
    /\ files s' = files s /\ read_only s' = read_only s
    /\ (forall v, dict_get (fn, ds) (function_cache s) = Some v ->
          code = v /\ function_cache s' = function_cache s).
Proof.
  intros Hm. destruct (visit_marker_spec token_endpoint backend py_compile l c args fn ds s Hm)
    as (code & s' & E & H).
  exists code, s'. cbn [visit_stmt]. unfold bind at 1. rewrite E. split; [reflexivity | exact H].
Qed.

Lemma visit_sites_cached (args : list expr) (fn ds : pyconst) (v : string)
    (sites : list (Z * Z)) (s : state) :
  marker_args args fn ds -> dict_get (fn, ds) (function_cache s) = Some v ->
  exists s', vmod (marker_stmts args sites) s
             = (Ok (map (fun _ => SExpr (EName (str_const fn))) sites), s')
    /\ function_codes s' = (function_codes s ++ repeat v (length sites))%list
    /\ dict_get (fn, ds) (function_cache s') = Some v
    /\ files s' = files s /\ read_only s' = read_only s.
Proof.
  intros Hm. revert s. induction sites as [|[l c] r IH]; intros s Hv.
  - exists s. simpl. rewrite app_nil_r. auto.
  - destruct (visit_marker_stmt l c args fn ds s Hm) as (code & s1 & E1 & _ & Hc1 & Hf1 & Hro1 & Hhit).
    destruct (Hhit v Hv) as [-> Hcache1].
    rewrite <- Hcache1 in Hv. destruct (IH s1 Hv) as (s' & E & Hc & Hk & Hf & Hro).
    exists s'. unfold visit_module in *. simpl. unfold bind at 1. simpl in E1. rewrite E1.
    unfold bind at 1. rewrite E. split; [reflexivity|].
    rewrite Hc, Hc1, <- app_assoc. repeat split; congruence.
Qed.

Lemma visit_sites (args : list expr) (fn ds : pyconst) (sites : list (Z * Z)) (s : state) :
  marker_args args fn ds ->
  exists v s', vmod (marker_stmts args sites) s
             = (Ok (map (fun _ => SExpr (EName (str_const fn))) sites), s')
    /\ function_codes s' = (function_codes s ++ repeat v (length sites))%list
    /\ files s' = files s /\ read_only s' = read_only s.
Proof.
  intros Hm. destruct sites as [|[l c] r].
  - exists EmptyString, s. simpl. rewrite app_nil_r. auto.
  - destruct (visit_marker_stmt l c args fn ds s Hm) as (v & s1 & E1 & Hk1 & Hc1 & Hf1 & Hro1 & _).
    destruct (visit_sites_cached args fn ds v r s1 Hm Hk1) as (s' & E & Hc & _ & Hf & Hro).
    exists v, s'. unfold visit_module in *. simpl. unfold bind at 1. simpl in E1. rewrite E1.
    unfold bind at 1. rewrite E. split; [reflexivity|].
    rewrite Hc, Hc1, <- app_assoc. repeat split; congruence.
Qed.


(** C3 (failures inside [sid_compiler]): reading and writing are guarded,
    parsing is not: when the input file's text does not parse, the
    [SyntaxError] propagates out of [sid_compiler]. *)
Theorem sid_compiler_parse_error_escapes (s : state) (inp out src : string) :
  file_get inp (files s) = Some src ->
  py_parse src = None ->
  compiler inp out s = (Raise (SyntaxError "invalid syntax"), s).
Proof.
  intros Hsrc Hparse. unfold sid_compiler, bind, gets. rewrite Hsrc, Hparse. reflexivity.
Qed.

End Driver.

(** ** The claims about the key encoding and the command line *)

(** C4 (key round trip): [eval(str((name, desc)))] gives back
    [(name, desc)] for all texts, separators, quotes and backslashes
    included. *)
Theorem key_encoding_roundtrip (name desc : string) :
  eval_key (encode_key (PStr name, PStr desc)) = Some (PStr name, PStr desc).
Proof. apply eval_key_encode. Qed.

(** C8, counterexample: one positional argument runs the interactive prompt,
    not a usage error. *)
Lemma main_one_argument_interactive : main ["in.py"] = RunInteractive.
Proof. reflexivity. Qed.

(** C8 (command line, as the code does it): two non-empty positional
    arguments run batch mode, more than two are a usage error, and every
    other command line (none, one, or two with an empty one) runs the
    interactive prompt. *)
Theorem main_dispatch :
  (forall a b, a <> EmptyString -> b <> EmptyString -> main [a; b] = RunBatch a b)
  /\ (forall argv, (3 <= length argv)%nat -> exists m, main argv = UsageExit m)
  /\ main [] = RunInteractive
  /\ (forall a, main [a] = RunInteractive)
  /\ (forall a, main [EmptyString; a] = RunInteractive /\ main [a; EmptyString] = RunInteractive).
Proof.
  split; [|split; [|split; [reflexivity | split; [intros [|x a]; reflexivity|]]]].
  - intros [|x a] [|y b] Ha Hb; try contradiction; reflexivity.
  - intros [|a [|b [|x r]]] H; simpl in H; try lia. eexists. reflexivity.
  - intros [|x a]; split; reflexivity.
Qed.

(** ** Concrete runs *)

Example ex_run1_output :
  fst ex_run1 = Ok [SAssign "result" (EName "add_two_numbers")]
  /\ function_codes (snd ex_run1) = [ex_code]
  /\ length (requests (snd ex_run1)) = 1%nat
  /\ cache_file (snd ex_run1)
     = CacheJson [(encode_key (PStr "add_two_numbers", PStr "add two numbers"), ex_code)].
Proof. vm_compute. repeat split. Qed.

(** C2, counterexample: a 500 answer stores ["Response 404"], not the empty
    string. *)
Lemma generation_failure_not_empty :
  dict_get (PStr "add_two_numbers", PStr "add two numbers")
    (function_cache (snd (visit ex_token_endpoint ex_backend_500 ex_compile
                            (ECall 1 9 (EName "sid") ex_args) (ex_state []))))
  = Some "Response 404"
  /\ dict_get (PStr "add_two_numbers", PStr "add two numbers")
       (function_cache (snd (visit ex_token_endpoint ex_backend_500 ex_compile
                               (ECall 1 9 (EName "sid") ex_args) (ex_state []))))
     <> Some EmptyString.
Proof. vm_compute. split; [reflexivity | discriminate]. Qed.

Lemma generation_failure_stored_witness :
  exists s', visit ex_token_endpoint ex_backend_500 ex_compile
               (ECall 1 9 (EName "sid") ex_args) (ex_state [])
             = (Ok (EName "add_two_numbers"), s')
    /\ dict_get (PStr "add_two_numbers", PStr "add two numbers") (function_cache s')
       = Some "Response 404".
Proof.
  apply (generation_failure_stored ex_token_endpoint ex_backend_500 ex_compile 1 9 ex_args
           (PStr "add_two_numbers") (PStr "add two numbers") (ex_state []) "Response 404").
  - exact (MarkerDesc "add two numbers").
  - reflexivity.
  - right. split; [| reflexivity]. exists 500%Z, (PContent "Internal Server Error").
    split; [reflexivity | discriminate].
Defined.


Lemma marker_site_becomes_name_witness :
  exists s', visit_stmt ex_token_endpoint ex_backend ex_compile
               (SAssign "result" (ECall 1 9 (EName "sid") ex_args)) (ex_state [])
             = (Ok (SAssign "result" (EName "add_two_numbers")), s').
Proof.
  destruct (marker_site_becomes_name ex_token_endpoint ex_backend ex_compile 1 9 ex_args
              (PStr "add_two_numbers") (PStr "add two numbers") (ex_state [])
              (MarkerDesc "add two numbers")) as [s' E].
  exists s'. simpl in E |- *. unfold bind at 1. rewrite E. reflexivity.
Defined.


Lemma sid_compiler_parse_error_escapes_witness :
  sid_compiler ex_token_endpoint ex_backend ex_compile (fun _ => None) ex_unparse
    "in.py" "out.py" (ex_state [("in.py", "def (")])
  = (Raise (SyntaxError "invalid syntax"), ex_state [("in.py", "def (")]).
Proof.
  apply (sid_compiler_parse_error_escapes ex_token_endpoint ex_backend ex_compile (fun _ => None)
           ex_unparse (ex_state [("in.py", "def (")]) "in.py" "out.py" "def (");
    reflexivity.
Defined.

(** * Further properties of the program *)

(** ** Monadic steps *)

Lemma bind_ok {A B} (m : M A) (k : A -> M B) (s s' : state) (b : B) :
  bind m k s = (Ok b, s') -> exists a s1, m s = (Ok a, s1) /\ k a s1 = (Ok b, s').
Proof.
  unfold bind. destruct (m s) as [[a|e] s1]; intros H; [eauto | discriminate].
Qed.

(** ** Steps that keep a property of the state *)

Section Stable.

Variable token_endpoint : Z -> token_response.
Variable backend : string -> string -> completion_response.
Variable py_compile : string -> option string.
Variable py_parse : string -> option pmodule.
Variable py_unparse : pmodule -> string.
Variable output_path : string.

Variable P : state -> Prop.
Hypothesis P_logs : forall s l, P s -> P (with_logs s l).
Hypothesis P_codes : forall s c, P s -> P (with_codes s c).
Hypothesis P_cache : forall s c, P s -> P (with_cache s c).
Hypothesis P_requests : forall s r, P s -> P (with_requests s r).
Hypothesis P_token : forall s t tm, P s -> P (with_token s t tm).
Hypothesis P_save : forall s, P s -> P (snd (save_cache s)).
Hypothesis P_out : forall s c,
  P s -> existsb (String.eqb output_path) (read_only s) = false ->
  P (with_files s (file_set output_path c (files s))).

Definition stable {A} (m : M A) : Prop := forall s, P s -> P (snd (m s)).

Lemma stable_ret {A} (a : A) : stable (ret a).
Proof. intros s H. exact H. Qed.

Lemma stable_raise {A} (e : exn) : stable (A := A) (raise e).
Proof. intros s H. exact H. Qed.

Lemma stable_gets {A} (f : state -> A) : stable (gets f).
Proof. intros s H. exact H. Qed.

Lemma stable_bind {A B} (m : M A) (k : A -> M B) :
  stable m -> (forall a, stable (k a)) -> stable (bind m k).
Proof.
  intros Hm Hk s Hs. unfold bind. specialize (Hm s Hs).
  destruct (m s) as [[a|e] s']; simpl in *; [exact (Hk a s' Hm) | exact Hm].
Qed.

Lemma stable_mapM {A B} (f : A -> M B) (l : list A) :
  Forall (fun x => stable (f x)) l -> stable (mapM f l).
Proof.
  induction 1 as [|x r Hx Hr IH]; simpl.
  - apply stable_ret.
  - apply stable_bind; [exact Hx | intros y].
    apply stable_bind; [exact IH | intros ys]. apply stable_ret.
Qed.

Lemma stable_log (lv : level) (msg : string) : stable (log lv msg).
Proof. intros s H. now apply P_logs. Qed.

Lemma stable_append_code (code : string) :
  stable (modify (fun s => with_codes s (function_codes s ++ [code])%list)).
Proof. intros s H. now apply P_codes. Qed.

Lemma stable_set_cache (f : state -> list (key * string)) :
  stable (modify (fun s => with_cache s (f s))).
Proof. intros s H. now apply P_cache. Qed.

Lemma stable_save : stable save_cache.
Proof. exact P_save. Qed.

Lemma stable_refresh : stable (refresh_token token_endpoint).
Proof.
  intros s H. unfold refresh_token. destruct (Z.ltb _ _); simpl; [now apply P_token | exact H].
Qed.

Lemma stable_post (auth prompt : string) : stable (post_completion backend auth prompt).
Proof. intros s H. now apply P_requests. Qed.

Create HintDb stable_db.
#[local] Hint Resolve stable_ret stable_raise stable_gets stable_log stable_append_code
  stable_set_cache stable_save stable_refresh stable_post stable_mapM : stable_db.
#[local] Hint Constructors Forall : stable_db.

Ltac stable_step :=
  repeat first [ solve [auto with stable_db]
               | apply stable_bind; [solve [auto with stable_db] | intros ?] ].

Lemma stable_generation_failed (msg : string) : stable (generation_failed msg).
Proof. unfold generation_failed. stable_step. Qed.

#[local] Hint Resolve stable_generation_failed : stable_db.

Lemma stable_generate (fn ds : pyconst) :
  stable (generate_function token_endpoint backend py_compile fn ds).
Proof.
  unfold generate_function. stable_step.
  match goal with r : completion_response |- _ => destruct r as [m | status [content | m]] end;
    [| destruct (negb _) | destruct (negb _)]; stable_step.
  destruct (py_compile _); stable_step.
Qed.

#[local] Hint Resolve stable_generate : stable_db.

Lemma stable_use (fn ds : pyconst) : stable (use_marker token_endpoint backend py_compile fn ds).
Proof.
  unfold use_marker. apply stable_bind; [apply stable_gets | intros cache].
  apply stable_bind; [| intros code; stable_step].
  destruct (dict_get _ _); stable_step.
Qed.

Lemma stable_attr_s (e : expr) : stable (attr_s e).
Proof. destruct e; intros s H; exact H. Qed.

#[local] Hint Resolve stable_use stable_attr_s : stable_db.

Lemma stable_visit (e : expr) : stable (visit token_endpoint backend py_compile e).
Proof.
  induction e as [id | c | l c f args Hf Hargs | tag cs Hcs] using expr_ind_deep; simpl.
  - apply stable_ret.
  - apply stable_ret.
  - destruct (is_sid f).
    + destruct args as [|d [|n [|x r]]].
      * stable_step.
      * apply stable_bind; [apply stable_attr_s | intros [desc | z]]; stable_step.
      * stable_step.
      * stable_step.
    + stable_step.
  - stable_step.
Qed.

Lemma stable_visit_module (m : pmodule) :
  stable (visit_module token_endpoint backend py_compile m).
Proof.
  unfold visit_module. apply stable_mapM. apply Forall_forall. intros [e | t e] _; simpl;
    (apply stable_bind; [apply stable_visit | intros e']; apply stable_ret).
Qed.

Lemma stable_load_cache : stable load_cache.
Proof.
  unfold load_cache. apply stable_bind; [apply stable_gets | intros f].
  destruct f as [|obj|m]; [| destruct (decode_cache obj []) |]; stable_step.
Qed.

Lemma stable_new_transformer : stable (new_transformer token_endpoint).
Proof.
  unfold new_transformer. apply stable_bind; [intros s H; now apply P_codes | intros ?].
  apply stable_bind; [apply stable_load_cache | intros ?].
  intros s H. now apply P_token.
Qed.

Lemma stable_sid_compiler (input_path : string) :
  stable (sid_compiler token_endpoint backend py_compile py_parse py_unparse
            input_path output_path).
Proof.
  unfold sid_compiler. apply stable_bind; [apply stable_gets | intros [code|]]; [|apply stable_log].
  destruct (py_parse code) as [module|]; [|apply stable_raise].
  apply stable_bind; [apply stable_new_transformer | intros ?].
  apply stable_bind; [apply stable_visit_module | intros ?].
  apply stable_bind; [apply stable_gets | intros ?].
  intros s H. unfold bind, gets. simpl.
  destruct (existsb (String.eqb output_path) (read_only s)) eqn:E.
  - now apply P_logs.
  - simpl. now apply P_out.
Qed.

End Stable.

(** ** Text, file and dict helpers *)

Lemma bind_step {A B} (m : M A) (k : A -> M B) (s s1 : state) (a : A) :
  m s = (Ok a, s1) -> bind m k s = k a s1.
Proof. intros H. unfold bind. now rewrite H. Qed.

Lemma bind_raise_step {A B} (m : M A) (k : A -> M B) (s s1 : state) (e : exn) :
  m s = (Raise e, s1) -> bind m k s = (Raise e, s1).
Proof. intros H. unfold bind. now rewrite H. Qed.

Lemma mapM_cons_ok {A B} (f : A -> M B) (x : A) (l : list A) (s s1 s2 : state)
    (y : B) (ys : list B) :
  f x s = (Ok y, s1) -> mapM f l s1 = (Ok ys, s2) -> mapM f (x :: l) s = (Ok (y :: ys), s2).
Proof. intros H1 H2. simpl. unfold bind. rewrite H1, H2. reflexivity. Qed.

Lemma file_get_set_other (p q c : string) (fs : list (string * string)) :
  p <> q -> file_get p (file_set q c fs) = file_get p fs.
Proof.
  intros Hpq. induction fs as [|[r c'] fs IH]; simpl.
  - apply String.eqb_neq in Hpq. now rewrite Hpq.
  - destruct (String.eqb q r) eqn:E; simpl.
    + apply String.eqb_eq in E. subst r. apply String.eqb_neq in Hpq. now rewrite Hpq.
    + destruct (String.eqb p r); [reflexivity | exact IH].
Qed.

Lemma dict_get_none_not_in (k : key) (d : list (key * string)) :
  dict_get k d = None -> ~ In k (keys d).
Proof.
  induction d as [|[k' v] r IH]; simpl; intros H; [tauto|].
  destruct (key_eqb k k') eqn:E; [discriminate|]. intros [-> | Hin].
  - now rewrite key_eqb_refl in E.
  - exact (IH H Hin).
Qed.

Lemma decode_cache_bad (obj : list (string * string)) (ks v : string)
    (acc : list (key * string)) :
  In (ks, v) obj -> eval_key ks = None -> decode_cache obj acc = None.
Proof.
  revert acc. induction obj as [|[ks' v'] r IH]; simpl; intros acc Hin He; [contradiction|].
  destruct Hin as [E | Hin].
  - injection E as -> ->. now rewrite He.
  - destruct (eval_key ks'); [exact (IH _ Hin He) | reflexivity].
Qed.

Lemma prefix_app (pat r : string) : String.prefix pat (pat ++ r) = true.
Proof.
  induction pat as [|c pat IH]; simpl; [destruct r; reflexivity|].
  destruct (ascii_dec c c); [exact IH | contradiction].
Qed.

Lemma drop_app (pat r : string) : drop (String.length pat) (pat ++ r) = r.
Proof. induction pat as [|c pat IH]; simpl; [reflexivity | exact IH]. Qed.

Lemma prefix_other (p c : ascii) (ps r : string) :
  Ascii.eqb p c = false -> String.prefix (String p ps) (String c r) = false.
Proof.
  intros H. simpl. destruct (ascii_dec p c) as [->|]; [now rewrite Ascii.eqb_refl in H | reflexivity].
Qed.

Lemma split_sub_cons (pat : string) (c : ascii) (r : string) :
  split_sub pat (String c r)
  = if String.prefix pat (String c r) then Some (EmptyString, drop (String.length pat) (String c r))
    else match split_sub pat r with
         | Some (b, a) => Some (String c b, a)
         | None => None
         end.
Proof. reflexivity. Qed.

Lemma search_code_block_cons (c : ascii) (r : string) :
  search_code_block (String c r)
  = if String.prefix fence (String c r) then
      match fence_block_at (drop 3 (String c r)) with
      | Some b => Some b
      | None => search_code_block r
      end
    else search_code_block r.
Proof. reflexivity. Qed.

(** The first occurrence of a pattern, found after a text without the
    pattern's first character. *)
Lemma split_sub_app (p : ascii) (ps a r : string) :
  has_char p a = false ->
  split_sub (String p ps) (a ++ String p ps ++ r) = Some (a, r).
Proof.
  induction a as [|c a IH]; intros Ha.
  - simpl. destruct (ascii_dec p p); [|contradiction].
    rewrite prefix_app. f_equal. f_equal. exact (drop_app ps r).
  - simpl in Ha. apply orb_false_iff in Ha as [Hc Ha].
    change (String c a ++ String p ps ++ r) with (String c (a ++ String p ps ++ r)).
    rewrite split_sub_cons, prefix_other by exact Hc. rewrite IH by exact Ha.
    reflexivity.
Qed.

Lemma search_code_block_none (s : string) :
  split_sub fence s = None -> search_code_block s = None.
Proof.
  induction s as [|c r IH]; intros H; [reflexivity|].
  cbn [split_sub] in H. cbn [search_code_block].
  destruct (String.prefix fence (String c r)); [discriminate|].
  destruct (split_sub fence r) as [[b a]|]; [discriminate | exact (IH eq_refl)].
Qed.

Lemma replace_char_length (o n : ascii) (d : string) :
  String.length (replace_char o n d) = String.length d.
Proof. induction d as [|c d IH]; simpl; [reflexivity | now rewrite IH]. Qed.

(** ** Further steps of the transformer *)

Section Extras.

Variable token_endpoint : Z -> token_response.
Variable backend : string -> string -> completion_response.
Variable py_compile : string -> option string.
Variable py_parse : string -> option pmodule.
Variable py_unparse : pmodule -> string.

Local Abbreviation gen := (generate_function token_endpoint backend py_compile).
Local Abbreviation use := (use_marker token_endpoint backend py_compile).
Local Abbreviation vis := (visit token_endpoint backend py_compile).
Local Abbreviation vmod := (visit_module token_endpoint backend py_compile).
Local Abbreviation compiler :=
  (sid_compiler token_endpoint backend py_compile py_parse py_unparse).

Lemma new_transformer_token (s : state) :
  let s0 := snd (new_transformer token_endpoint s) in
  token s0 = get_token (token_endpoint (clock s)) /\ token_time s0 = clock s
  /\ clock s0 = clock s.
Proof.
  cbv [new_transformer load_cache bind modify gets log]. simpl.
  destruct (cache_file s) as [|obj|m]; simpl; [| destruct (decode_cache obj []) |];
    repeat split.
Qed.

Lemma new_transformer_run (s : state) :
  new_transformer token_endpoint s = (Ok tt, snd (new_transformer token_endpoint s)).
Proof.
  rewrite <- (new_transformer_ok token_endpoint s). now destruct (new_transformer _ s).
Qed.

Lemma use_counts (fn ds : pyconst) (s : state) :
  let s' := snd (use fn ds s) in
  fst (use fn ds s) = Ok (EName (str_const fn))
  /\ length (function_codes s') = S (length (function_codes s))
  /\ (length (requests s') <= S (length (requests s)))%nat.
Proof.
  destruct (dict_get (fn, ds) (function_cache s)) as [v|] eqn:Hk.
  - destruct (use_marker_hit token_endpoint backend py_compile fn ds s v Hk)
      as (s' & E & Hc & Hr & _). rewrite E. simpl.
    rewrite Hc, Hr, length_app. simpl. split; [reflexivity | split; lia].
  - destruct (use_marker_miss token_endpoint backend py_compile fn ds s Hk)
      as (code & s1 & s' & Eg & E & _ & Hc & _ & _ & Hr & _).
    destruct (generate_function_spec token_endpoint backend py_compile fn ds s)
      as (code' & s1' & Eg' & _ & _ & _ & _ & _ & _ & _ & Hr1 & _).
    rewrite Eg in Eg'. injection Eg' as <- <-.
    rewrite E. simpl. rewrite Hc, Hr, Hr1, !length_app. simpl. split; [reflexivity | split; lia].
Qed.

Lemma attr_s_ok (e : expr) (s s1 : state) (c : pyconst) :
  attr_s e s = (Ok c, s1) -> e = EConst c /\ s1 = s.
Proof. destruct e; simpl; intros H; try discriminate. now injection H as -> ->. Qed.

Lemma visit_call_nonsid (l c : Z) (f : expr) (args : list expr) :
  is_sid f = false ->
  vis (ECall l c f args) = (f' <- vis f ;; args' <- mapM vis args ;; ret (ECall l c f' args')).
Proof. intros H. cbn [visit]. now rewrite H. Qed.

(** What a successful visit of [e] adds: one fragment per marker site, and
    at most one request per site. *)
Definition visit_counts (e : expr) : Prop :=
  forall s e' s', vis e s = (Ok e', s') ->
    length (function_codes s') = (length (function_codes s) + marker_count e)%nat
    /\ (length (requests s') <= length (requests s) + marker_count e)%nat.

Lemma mapM_visit_counts (args : list expr) :
  Forall visit_counts args ->
  forall s args' s', mapM vis args s = (Ok args', s') ->
    length (function_codes s') = (length (function_codes s) + list_sum (map marker_count args))%nat
    /\ (length (requests s') <= length (requests s) + list_sum (map marker_count args))%nat.
Proof.
  induction 1 as [|x r Hx Hr IH]; intros s args' s' E.
  - simpl in E. injection E as _ <-. simpl. lia.
  - simpl in E. apply bind_ok in E as (y & s1 & E1 & E2).
    apply bind_ok in E2 as (ys & s2 & E2 & E3). injection E3 as _ <-.
    destruct (Hx _ _ _ E1) as [H1 H1']. destruct (IH _ _ _ E2) as [H2 H2'].
    simpl. lia.
Qed.

Lemma log_run (lv : level) (msg : string) (s : state) :
  log lv msg s = (Ok tt, with_logs s (logs s ++ [(lv, msg)])%list).
Proof. reflexivity. Qed.

Lemma visit_counts_all (e : expr) : visit_counts e.
Proof.
  induction e as [id | c | l c f args Hf Hargs | tag cs Hcs] using expr_ind_deep;
    intros s e' s' E.
  - simpl in E. injection E as _ <-. simpl. lia.
  - simpl in E. injection E as _ <-. simpl. lia.
  - cbn [visit] in E. cbn [marker_count].
    assert (Hrest : forall s0, (f' <- vis f ;; args' <- mapM vis args ;; ret (ECall l c f' args')) s0
                    = (Ok e', s') ->
              length (function_codes s') = (length (function_codes s0) + (marker_count f
                + list_sum (map marker_count args)))%nat
              /\ (length (requests s') <= length (requests s0) + (marker_count f
                + list_sum (map marker_count args)))%nat).
    { intros s0 E0. apply bind_ok in E0 as (f' & s1 & E1 & E2).
      apply bind_ok in E2 as (args' & s2 & E2 & E3). injection E3 as _ <-.
      destruct (Hf _ _ _ E1) as [H1 H1']. destruct (mapM_visit_counts args Hargs _ _ _ E2) as [H2 H2'].
      lia. }
    destruct (is_sid f); [| exact (Hrest s E)].
    destruct args as [|d [|n [|x r]]].
    + apply bind_ok in E as (u & s0 & E0 & E). rewrite log_run in E0. injection E0 as _ <-.
      exact (Hrest _ E).
    + apply bind_ok in E as (dv & s0 & E0 & E). apply attr_s_ok in E0 as [_ ->].
      destruct dv as [desc | z]; [|discriminate].
      apply bind_ok in E as (u & s0 & E0 & E). rewrite log_run in E0. injection E0 as _ <-.
      match type of E with use ?a ?b ?t = _ => destruct (use_counts a b t) as (_ & Hc & Hr) end.
      rewrite E in Hc, Hr. simpl in Hc, Hr. lia.
    + apply bind_ok in E as (fv & s0 & E0 & E). apply attr_s_ok in E0 as [_ ->].
      apply bind_ok in E as (dv & s0 & E0 & E). apply attr_s_ok in E0 as [_ ->].
      apply bind_ok in E as (u & s0 & E0 & E). rewrite log_run in E0. injection E0 as _ <-.
      match type of E with use ?a ?b ?t = _ => destruct (use_counts a b t) as (_ & Hc & Hr) end.
      rewrite E in Hc, Hr. simpl in Hc, Hr. lia.
    + apply bind_ok in E as (u & s0 & E0 & E). rewrite log_run in E0. injection E0 as _ <-.
      exact (Hrest _ E).
  - cbn [visit] in E. apply bind_ok in E as (cs' & s1 & E1 & E2). injection E2 as _ <-.
    exact (mapM_visit_counts cs Hcs _ _ _ E1).
Qed.

Lemma visit_sid_free (e : expr) : sid_free e = true -> forall s, vis e s = (Ok e, s).
Proof.
  induction e as [id | c | l c f args Hf Hargs | tag cs Hcs] using expr_ind_deep;
    intros H s; try reflexivity.
  - cbn [sid_free] in H. apply andb_true_iff in H as [H Ha]. apply andb_true_iff in H as [Hs Hff].
    apply negb_true_iff in Hs. rewrite visit_call_nonsid by exact Hs.
    rewrite (bind_step _ _ s s f) by exact (Hf Hff s).
    assert (Hm : forall xs, Forall (fun e => sid_free e = true -> forall s, vis e s = (Ok e, s)) xs ->
                 forallb sid_free xs = true -> mapM vis xs s = (Ok xs, s)).
    { induction 1 as [|x r Hx Hr IH]; intros Hall; [reflexivity|].
      simpl in Hall. apply andb_true_iff in Hall as [H1 H2].
      exact (mapM_cons_ok _ _ _ _ _ _ _ _ (Hx H1 s) (IH H2)). }
    rewrite (bind_step _ _ s s args) by exact (Hm args Hargs Ha). reflexivity.
  - cbn [sid_free] in H. cbn [visit].
    assert (Hm : forall xs, Forall (fun e => sid_free e = true -> forall s, vis e s = (Ok e, s)) xs ->
                 forallb sid_free xs = true -> mapM vis xs s = (Ok xs, s)).
    { induction 1 as [|x r Hx Hr IH]; intros Hall; [reflexivity|].
      simpl in Hall. apply andb_true_iff in Hall as [H1 H2].
      exact (mapM_cons_ok _ _ _ _ _ _ _ _ (Hx H1 s) (IH H2)). }
    rewrite (bind_step _ _ s s cs) by exact (Hm cs Hcs H). reflexivity.
Qed.

Lemma visit_module_sid_free (m : pmodule) (s : state) :
  forallb (fun st => sid_free (stmt_expr st)) m = true -> vmod m s = (Ok m, s).
Proof.
  unfold visit_module. induction m as [|st r IH]; intros H; [reflexivity|].
  simpl in H. apply andb_true_iff in H as [H1 H2].
  apply (mapM_cons_ok _ _ _ s s s); [| exact (IH H2)].
  destruct st as [e | t e]; cbn [visit_stmt stmt_expr] in *;
    now rewrite (bind_step _ _ s s e) by exact (visit_sid_free e H1 s).
Qed.

End Extras.

(** ** Extracting the code block of a completion *)

(** The fence search of [generate_function]: a completion without any
    triple backtick is kept as it is; a completion [pre ```lang NL body ```
    rest], with no backtick in [pre] or [body] and no newline in [lang],
    gives [body]. *)
Theorem code_block_extraction :
  (forall content, split_sub fence content = None -> search_code_block content = None)
  /\ (forall pre lang body rest,
        has_char "`" pre = false -> has_char (ascii_of_nat 10) lang = false ->
        has_char "`" body = false ->
        search_code_block (pre ++ fence ++ lang ++ nl ++ body ++ fence ++ rest)
        = Some body).
Proof.
  split; [exact search_code_block_none|].
  intros pre lang body rest Hpre Hlang Hbody.
  induction pre as [|c pre IH].
  - set (X := lang ++ nl ++ body ++ fence ++ rest).
    change (EmptyString ++ fence ++ X) with (String "`" (String "`" (String "`" X))).
    rewrite search_code_block_cons.
    change (String "`" (String "`" (String "`" X))) with (fence ++ X).
    rewrite prefix_app. change 3%nat with (String.length fence). rewrite drop_app.
    unfold fence_block_at, X, nl. rewrite split_sub_app by exact Hlang.
    unfold fence. rewrite split_sub_app by exact Hbody. reflexivity.
  - simpl in Hpre. apply orb_false_iff in Hpre as [Hc Hpre].
    change (String c pre ++ fence ++ lang ++ nl ++ body ++ fence ++ rest)
      with (String c (pre ++ fence ++ lang ++ nl ++ body ++ fence ++ rest)).
    rewrite search_code_block_cons. unfold fence at 1. rewrite prefix_other by exact Hc.
    exact (IH Hpre).
Qed.

Section ExtraTheorems.

Variable token_endpoint : Z -> token_response.
Variable backend : string -> string -> completion_response.
Variable py_compile : string -> option string.
Variable py_parse : string -> option pmodule.
Variable py_unparse : pmodule -> string.

Local Abbreviation gen := (generate_function token_endpoint backend py_compile).
Local Abbreviation use := (use_marker token_endpoint backend py_compile).
Local Abbreviation vis := (visit token_endpoint backend py_compile).
Local Abbreviation vmod := (visit_module token_endpoint backend py_compile).
Local Abbreviation compiler :=
  (sid_compiler token_endpoint backend py_compile py_parse py_unparse).

(** [generate_function] never raises, and what it returns passes the
    [compile] check unless it is one of its two failure texts, the empty
    string or ["Response 404"]. *)
Theorem generate_function_result (fn ds : pyconst) (s : state) :
  exists code s', gen fn ds s = (Ok code, s')
    /\ (py_compile code = None \/ code = EmptyString \/ code = "Response 404").
Proof.
  destruct (generate_function_spec token_endpoint backend py_compile fn ds s)
    as (code & s' & E & _ & _ & _ & _ & _ & _ & _ & _ & Hcode).
  exists code, s'. split; [exact E|]. rewrite Hcode.
  destruct (backend _ _) as [m | status body]; [right; left; reflexivity|].
  destruct (negb (Z.eqb status 200)); [right; right; reflexivity|].
  destruct body as [content | m]; [| right; left; reflexivity].
  cbv zeta. clear Hcode E.
  destruct (py_compile (match search_code_block content with Some b => b | None => content end))
    eqn:Ec; [right; left; reflexivity | left; exact Ec].
Qed.

(** The token is refreshed by [generate_function] only when strictly more
    than 600 seconds have passed since it was fetched; the new token is then
    stamped with the current time. *)
Theorem generate_function_token_refresh (fn ds : pyconst) (s : state) :
  let s' := snd (gen fn ds s) in
  ((clock s - token_time s <= 600)%Z -> token s' = token s /\ token_time s' = token_time s)
  /\ ((600 < clock s - token_time s)%Z ->
      token s' = get_token (token_endpoint (clock s)) /\ token_time s' = clock s).
Proof.
  unfold generate_function, refresh_token, bind, gets, post_completion,
    generation_failed, log, modify, ret.
  destruct (Z.ltb 600 (clock s - token_time s)) eqn:Et;
    [apply Z.ltb_lt in Et | apply Z.ltb_ge in Et]; simpl;
    destruct (backend _ _) as [m | status body]; simpl;
    try destruct (negb (Z.eqb status 200)); simpl;
    try destruct body as [content | m]; simpl;
    try destruct (py_compile _); simpl;
    (split; intros H; [try lia | try lia]; split; reflexivity).
Qed.

(** [interactive_mode] does not look the description up in the cache: it
    always sends one request (for the name derived from the description,
    with the token just fetched), never writes the cache file, and prints
    the generated text between its heading and a blank line. *)
Theorem interactive_mode_always_requests (d : string) (s : state) :
  exists code s',
    interactive_mode token_endpoint backend py_compile d s
    = (Ok ("Generated code:" ++ nl ++ nl ++ code ++ nl ++ nl), s')
    /\ requests s' = (requests s ++ [(("Bearer " ++ str_val (get_token (token_endpoint (clock s))))%string,
                                     prompt_text (PStr (replace_char " " "_" d)) (PStr d))])%list
    /\ cache_file s' = cache_file s /\ function_cache s' = loaded (cache_file s).
Proof.
  set (s0 := snd (new_transformer token_endpoint s)).
  destruct (new_transformer_token token_endpoint s) as (Ht & Htt & Hcl). fold s0 in Ht, Htt, Hcl.
  destruct (new_transformer_spec token_endpoint s) as (Hc & _ & Hf & _ & Hr & _).
  fold s0 in Hc, Hf, Hr.
  destruct (generate_function_spec token_endpoint backend py_compile
              (PStr (replace_char " " "_" d)) (PStr d) s0)
    as (code & s' & E & Hc' & _ & Hf' & _ & _ & _ & _ & Hr' & _).
  assert (Hsent : sent_token token_endpoint s0 = get_token (token_endpoint (clock s))).
  { unfold sent_token. rewrite Hcl, Htt, Z.sub_diag. exact Ht. }
  exists code, s'. unfold interactive_mode.
  rewrite (bind_step _ _ s s0 tt) by exact (new_transformer_run token_endpoint s).
  unfold bind at 1. rewrite E. split; [reflexivity|].
  rewrite Hr', Hsent, Hr, Hc', Hc, Hf', Hf. repeat split.
Qed.



(** Saving never merges two entries: a table with distinct keys is written
    as a JSON object with distinct keys. *)
Theorem encode_cache_keys_distinct (d : list (key * string)) :
  NoDup (keys d) -> NoDup (map fst (encode_cache d)).
Proof.
  induction d as [|[k v] r IH]; simpl; intros Hn; [constructor|].
  inversion Hn as [|? ? Hk Hr]; subst. constructor; [| exact (IH Hr)].
  intros Hin. apply Hk. unfold encode_cache in Hin. rewrite map_map in Hin.
  apply in_map_iff in Hin as ([k' v'] & Ek & Hin'). simpl in Ek.
  assert (k' = k) as <-.
  { pose proof (eval_key_encode k') as E1. rewrite Ek, eval_key_encode in E1. congruence. }
  exact (in_map fst _ _ Hin').
Qed.

(** With an unwritable cache file, no run of [sid_compiler] changes the
    cache file, whatever it generates and whether or not it raises. *)
Theorem unwritable_cache_file_untouched (s : state) (inp out : string) :
  cache_writable s = false -> cache_file (snd (compiler inp out s)) = cache_file s.
Proof.
  intros Hw.
  refine (proj2 (stable_sid_compiler token_endpoint backend py_compile py_parse py_unparse out
            (fun t => cache_writable t = false /\ cache_file t = cache_file s)
            _ _ _ _ _ _ _ inp s (conj Hw eq_refl)));
    try (intros t ? H; exact H); try (intros t ? ? H; exact H).
  - intros t [Hw' Hf]. cbv [save_cache bind gets]. rewrite Hw'. split; assumption.
  - intros t ? H _. exact H.
Qed.






(** A successful pass over a module adds exactly one fragment to the pool
    per marker site (a [sid] call with one or two arguments, at any depth of
    the visited tree) and sends at most one request per site. *)
Theorem pass_counts_sites (m m' : pmodule) (s s' : state) :
  vmod m s = (Ok m', s') ->
  length (function_codes s') = (length (function_codes s) + module_marker_count m)%nat
  /\ (length (requests s') <= length (requests s) + module_marker_count m)%nat.
Proof.
  unfold visit_module, module_marker_count. revert s m'.
  induction m as [|st r IH]; intros s m' E.
  - simpl in E. injection E as _ <-. simpl. lia.
  - simpl in E. apply bind_ok in E as (st' & s1 & E1 & E2).
    apply bind_ok in E2 as (r' & s2 & E2 & E3). injection E3 as _ <-.
    assert (Hst : exists e', vis (stmt_expr st) s = (Ok e', s1)).
    { destruct st as [e | t e]; cbn [visit_stmt stmt_expr] in *;
        apply bind_ok in E1 as (e' & s3 & E4 & E5); injection E5 as _ <-; eauto. }
    destruct Hst as [e' He]. destruct (visit_counts_all token_endpoint backend py_compile
                                         (stmt_expr st) _ _ _ He) as [H1 H1'].
    destruct (IH _ _ E2) as [H2 H2']. simpl. lia.
Qed.




End ExtraTheorems.

(** The name derived from a one-argument marker, [description.replace(' ',
    '_')], contains no space and is as long as the description. *)
Theorem derived_name_no_space (d : string) :
  has_char " " (replace_char " " "_" d) = false
  /\ String.length (replace_char " " "_" d) = String.length d.
Proof.
  split; [| apply replace_char_length].
  induction d as [|ch d IH]; simpl; [reflexivity|].
  rewrite IH, orb_false_r.
  destruct (Ascii.eqb ch " ") eqn:E; [reflexivity|].
  destruct ch as [[] [] [] [] [] [] [] []]; try reflexivity; discriminate E.
Qed.


(** ** Concrete instances of the further properties *)



Lemma encode_cache_keys_distinct_witness : NoDup (map fst (encode_cache ex_table)).
Proof.
  apply (encode_cache_keys_distinct ex_table).
  simpl. constructor; [intros [H | []]; discriminate | constructor; [intros [] | constructor]].
Defined.

Lemma unwritable_cache_file_untouched_witness :
  cache_file (snd (sid_compiler ex_token_endpoint ex_backend ex_compile ex_parse ex_unparse
                     "in.py" "out.py" (ex_config [("in.py", ex_src)] [] false)))
  = CacheAbsent.
Proof.
  exact (unwritable_cache_file_untouched ex_token_endpoint ex_backend ex_compile ex_parse ex_unparse
           (ex_config [("in.py", ex_src)] [] false) "in.py" "out.py" eq_refl).
Defined.






Lemma pass_counts_sites_witness :
  length (function_codes (snd (visit_module ex_token_endpoint ex_backend ex_compile
                                 (marker_stmts ex_args [(1, 0); (2, 0)]%Z) (ex_state []))))
  = (length (function_codes (ex_state [])) + module_marker_count (marker_stmts ex_args [(1, 0); (2, 0)]%Z))%nat
  /\ (length (requests (snd (visit_module ex_token_endpoint ex_backend ex_compile
                               (marker_stmts ex_args [(1, 0); (2, 0)]%Z) (ex_state []))))
      <= length (requests (ex_state [])) + module_marker_count (marker_stmts ex_args [(1, 0); (2, 0)]%Z))%nat.
Proof.
  apply (pass_counts_sites ex_token_endpoint ex_backend ex_compile
           (marker_stmts ex_args [(1, 0); (2, 0)]%Z)
           [SExpr (EName "add_two_numbers"); SExpr (EName "add_two_numbers")] (ex_state [])).
  vm_compute. reflexivity.
Defined.



